(** * smallsh: a verification development for the small Unix shell

    The shell of [smallsh.c] is embedded as a program over the system
    calls it issues.  A program is a tree whose nodes are system calls and
    whose branches are the kernel's answers; the four globals of
    [smallsh.h] are threaded through it as an explicit state.  [fork] is
    one call with one continuation, as in C: the very same code is run by
    the parent (answer: the child's pid), by the child (answer: 0) and on
    failure (answer: -1). *)

From stdpp Require Import base list strings gmap.
From Stdlib Require Import ZArith Lia Ascii.

Local Open Scope Z_scope.

(** ** Constants of [smallsh.h] and of the platform headers *)

Definition MAX_INPUT : Z := 2048.
Definition MAX_ARGS : Z := 512.
(** [pid_t bgProcesses[50]] *)
Definition BG_CAPACITY : Z := 50.

Definition STDIN_FILENO : Z := 0.
Definition STDOUT_FILENO : Z := 1.
Definition WNOHANG : Z := 1.

Definition LF : string := String (Ascii.ascii_of_nat 10) EmptyString.

Inductive signal : Type := SIGINT | SIGTSTP | SIGTERM.

Inductive sighandler : Type :=
| SIG_IGN
| SIG_DFL
| SIG_FUN (name : string).

Inductive oflag : Type := O_RDONLY | O_WRONLY | O_CREAT | O_TRUNC.

Global Instance signal_eq_dec : EqDecision signal.
Proof. solve_decision. Defined.
Global Instance sighandler_eq_dec : EqDecision sighandler.
Proof. solve_decision. Defined.
Global Instance oflag_eq_dec : EqDecision oflag.
Proof. solve_decision. Defined.

(** The wait-status macros of <sys/wait.h> (Linux/glibc encoding): the low
    seven bits hold the terminating signal, the next byte the exit code. *)
Definition WTERMSIG (status : Z) : Z := Z.land status 127.
Definition WIFEXITED (status : Z) : bool := WTERMSIG status =? 0.
Definition WEXITSTATUS (status : Z) : Z := Z.shiftr (Z.land status 65280) 8.

(** ** System calls *)

Inductive syscall : Type :=
| Fork
| Perror (msg : string)
| Open (path : string) (flags : list oflag) (mode : option Z)
| Dup2 (oldfd newfd : Z)
| Close (fd : Z)
| Sigaction (sig : signal) (h : sighandler)
| Execvp (file : option string) (argv : list string)
| Waitpid (pid : Z) (options : Z)
| Printf (fmt : string) (vals : list Z)
| Fflush
| Write (fd : Z) (buf : string) (n : Z)
| Fgets (size : Z)
| Clearerr
| Kill (pid : Z) (sig : signal)
| Chdir (path : option string)
| Getenv (name : string).

Global Instance syscall_eq_dec : EqDecision syscall.
Proof. solve_decision. Defined.

(** What the kernel (or libc) hands back.  [waitpid] returns a pid and
    stores a status; [execvp] returns only when it failed ([None]: the
    image was replaced); [fgets] and [getenv] may return NULL. *)
Definition ret_ty (c : syscall) : Type :=
  match c with
  | Waitpid _ _ => (Z * Z)%type
  | Execvp _ _ => option Z
  | Fgets _ => option string
  | Getenv _ => option string
  | _ => Z
  end.

(** The stores and loads outside an array that the code can reach: C
    gives them no meaning. *)
Inductive fault : Type :=
| BgReadOutOfBounds
| BgWriteOutOfBounds
| ArgsOutOfBounds.

(** How a process stops without returning to its caller: [exit], a
    successful [execvp], or undefined behaviour. *)
Inductive halt : Type :=
| HExit (code : Z)
| HExec (file : option string) (argv : list string)
| HUndef (what : fault).

Inductive Prog (A : Type) : Type :=
| Ret (a : A)
| Sys (c : syscall) (k : ret_ty c → Prog A)
| Stop (h : halt).

Arguments Ret {A} a.
Arguments Sys {A} c k.
Arguments Stop {A} h.

Fixpoint pbind {A B} (p : Prog A) (f : A → Prog B) : Prog B :=
  match p with
  | Ret a => f a
  | Sys c k => Sys c (λ r, pbind (k r) f)
  | Stop h => Stop h
  end.

(** ** The globals of [smallsh.h] *)

Record ShellState : Type := mkState {
  foregroundOnly : Z;
  lastExitStatus : Z;
  bgProcesses : list Z;
  bgCount : Z
}.

Definition initial_state : ShellState :=
  {| foregroundOnly := 0;
     lastExitStatus := 0;
     bgProcesses := replicate (Z.to_nat BG_CAPACITY) 0;
     bgCount := 0 |}.

Definition with_foregroundOnly (v : Z) (st : ShellState) : ShellState :=
  {| foregroundOnly := v; lastExitStatus := lastExitStatus st;
     bgProcesses := bgProcesses st; bgCount := bgCount st |}.
Definition with_lastExitStatus (v : Z) (st : ShellState) : ShellState :=
  {| foregroundOnly := foregroundOnly st; lastExitStatus := v;
     bgProcesses := bgProcesses st; bgCount := bgCount st |}.
Definition with_bgProcesses (v : list Z) (st : ShellState) : ShellState :=
  {| foregroundOnly := foregroundOnly st; lastExitStatus := lastExitStatus st;
     bgProcesses := v; bgCount := bgCount st |}.
Definition with_bgCount (v : Z) (st : ShellState) : ShellState :=
  {| foregroundOnly := foregroundOnly st; lastExitStatus := lastExitStatus st;
     bgProcesses := bgProcesses st; bgCount := v |}.

(** ** The monad of shell code: globals threaded through system calls *)

Definition M (A : Type) : Type := ShellState → Prog (A * ShellState).

Definition ret {A} (a : A) : M A := λ st, Ret (a, st).
Definition bindM {A B} (m : M A) (f : A → M B) : M B :=
  λ st, pbind (m st) (λ '(a, st'), f a st').
Definition sys (c : syscall) : M (ret_ty c) := λ st, Sys c (λ r, Ret (r, st)).
Definition stop {A} (h : halt) : M A := λ _, Stop h.
Definition gets {A} (f : ShellState → A) : M A := λ st, Ret (f st, st).
Definition modify (f : ShellState → ShellState) : M unit := λ st, Ret (tt, f st).

Global Instance M_ret : MRet M := @ret.
Global Instance M_bind : MBind M := λ A B f m, bindM m f.

(** ** [smallsh.c] *)

(** [handle_SIGTSTP], lines 22-30: the flag is flipped, then the notice
    is written with its length. *)
Definition handle_SIGTSTP (signo : signal) : M unit :=
  fo ← gets foregroundOnly;
  if fo =? 0 then
    modify (with_foregroundOnly 1);;
    sys (Write STDOUT_FILENO
           (LF +:+ "Entering foreground-only mode (& is now ignored)" +:+ LF) 50);;
    ret tt
  else
    modify (with_foregroundOnly 0);;
    sys (Write STDOUT_FILENO (LF +:+ "Exiting foreground-only mode" +:+ LF) 30);;
    ret tt.

(** [prompt], lines 37-40. *)
Definition prompt : M unit :=
  sys (Printf ": " []);; sys Fflush;; ret tt.

(** [bgProcesses[i]] as an rvalue: an index outside the array is undefined
    behaviour. *)
Definition bg_read (i : Z) : M Z :=
  tbl ← gets bgProcesses;
  if (0 <=? i) && (i <? BG_CAPACITY) then
    match tbl !! Z.to_nat i with
    | Some p => ret p
    | None => stop (HUndef BgReadOutOfBounds)
    end
  else stop (HUndef BgReadOutOfBounds).

(** Lines 55-59. *)
Definition report_status (status : Z) : M unit :=
  if WIFEXITED status then
    sys (Printf ("exit value %d" +:+ LF) [WEXITSTATUS status]);; ret tt
  else
    sys (Printf ("terminated by signal %d" +:+ LF) [WTERMSIG status]);; ret tt.

(** The body of the [for] loop of [checkBackgroundProcesses] (lines
    51-62), run for the [n] indices from [i] on.  Nothing in the body writes [bgCount], so the
    test [i < bgCount] is decided once by the caller. *)
Fixpoint reap_from (n : nat) (i : Z) : M unit :=
  match n with
  | O => ret tt
  | S n' =>
    h ← bg_read i;
    '(pid, status) ← sys (Waitpid h WNOHANG);
    (if 0 <? pid then
       sys (Printf "background pid %d is done: " [pid]);;
       report_status status;;
       sys Fflush;;
       ret tt
     else ret tt);;
    reap_from n' (i + 1)
  end.

Definition checkBackgroundProcesses : M unit :=
  n ← gets bgCount;
  reap_from (Z.to_nat n) 0.

(** [bgProcesses[bgCount++] = spawnPid], line 129: the count is read and
    incremented, and the pid is stored at the index read. *)
Definition bg_append (spawnPid : Z) : M unit :=
  n ← gets bgCount;
  modify (with_bgCount (n + 1));;
  if (0 <=? n) && (n <? BG_CAPACITY) then
    tbl ← gets bgProcesses;
    modify (with_bgProcesses (<[Z.to_nat n := spawnPid]> tbl))
  else stop (HUndef BgWriteOutOfBounds).

(** Lines 88-96 of [executeCommand]. *)
Definition redirect_input (inputFile : option string) : M unit :=
  match inputFile with
  | Some path =>
    inputFD ← sys (Open path [O_RDONLY] None);
    if inputFD =? -1 then
      sys (Perror "cannot open input file");; stop (HExit 1)
    else
      sys (Dup2 inputFD STDIN_FILENO);; sys (Close inputFD);; ret tt
  | None => ret tt
  end.

(** Lines 99-107; mode 0644 is 420. *)
Definition redirect_output (outputFile : option string) : M unit :=
  match outputFile with
  | Some path =>
    outputFD ← sys (Open path [O_WRONLY; O_CREAT; O_TRUNC] (Some 420));
    if outputFD =? -1 then
      sys (Perror "cannot open output file");; stop (HExit 1)
    else
      sys (Dup2 outputFD STDOUT_FILENO);; sys (Close outputFD);; ret tt
  | None => ret tt
  end.

(** [execvp] comes back only when it failed. *)
Definition execvp (file : option string) (argv : list string) : M Z :=
  r ← sys (Execvp file argv);
  match r with
  | Some e => ret e
  | None => stop (HExec file argv)
  end.

(** The branch [spawnPid == 0], lines 86-124.  [args[0]] is NULL when
    there is no argument.  Were [execvp] to come back with anything but
    -1, the child would leave the [if] and return to the loop. *)
Definition child_branch (args : list string) (background : Z)
    (inputFile outputFile : option string) : M unit :=
  redirect_input inputFile;;
  redirect_output outputFile;;
  sys (Sigaction SIGTSTP SIG_IGN);;
  (if background =? 0 then sys (Sigaction SIGINT SIG_DFL);; ret tt else ret tt);;
  e ← execvp (head args) args;
  if e =? -1 then
    sys (Perror "command not found");; stop (HExit 1)
  else ret tt.

(** The branch of the parent, lines 125-139.  The value of [waitpid] is
    not looked at, and [childStatus] is whatever the kernel stored. *)
Definition parent_branch (spawnPid background : Z) : M unit :=
  fo ← gets foregroundOnly;
  if negb (background =? 0) && (fo =? 0) then
    sys (Printf ("background pid is %d" +:+ LF) [spawnPid]);;
    sys Fflush;;
    bg_append spawnPid
  else
    '(_, childStatus) ← sys (Waitpid spawnPid 0);
    if WIFEXITED childStatus then
      modify (with_lastExitStatus (WEXITSTATUS childStatus))
    else
      sys (Printf ("terminated by signal %d" +:+ LF) [WTERMSIG childStatus]);;
      sys Fflush;;
      modify (with_lastExitStatus (WTERMSIG childStatus)).

(** [executeCommand], lines 79-141. *)
Definition executeCommand (args : list string) (background : Z)
    (inputFile outputFile : option string) : M unit :=
  spawnPid ← sys Fork;
  if spawnPid =? -1 then
    sys (Perror "fork() failed");; stop (HExit 1)
  else if spawnPid =? 0 then
    child_branch args background inputFile outputFile
  else
    parent_branch spawnPid background.


(** *** The tokenising loop of [main]

    [strtok (input, " \n")] and its follow-up calls hand out the maximal
    runs of characters other than space and newline, in order, and NULL
    from then on: the remaining tokens are the state of [strtok], and one
    call pops the first of them. *)

Definition is_delim (c : ascii) : bool :=
  Ascii.eqb c " "%char || Ascii.eqb c (Ascii.ascii_of_nat 10).

Fixpoint strtok_from (cur : string) (s : string) : list string :=
  match s with
  | EmptyString => if String.eqb cur EmptyString then [] else [cur]
  | String c s' =>
    if is_delim c then
      if String.eqb cur EmptyString then strtok_from EmptyString s'
      else cur :: strtok_from EmptyString s'
    else strtok_from (cur +:+ String c EmptyString) s'
  end.

Definition strtok_all (input : string) : list string :=
  strtok_from EmptyString input.

(** The locals [args]/[argCount], [background], [inputFile], [outputFile]. *)
Record Command : Type := mkCommand {
  args : list string;
  background : Z;
  inputFile : option string;
  outputFile : option string
}.

Definition no_command : Command :=
  {| args := []; background := 0; inputFile := None; outputFile := None |}.

Definition push_arg (t : string) (c : Command) : Command :=
  {| args := args c ++ [t]; background := background c;
     inputFile := inputFile c; outputFile := outputFile c |}.
Definition set_inputFile (p : option string) (c : Command) : Command :=
  {| args := args c; background := background c;
     inputFile := p; outputFile := outputFile c |}.
Definition set_outputFile (p : option string) (c : Command) : Command :=
  {| args := args c; background := background c;
     inputFile := inputFile c; outputFile := p |}.
Definition set_background (c : Command) : Command :=
  {| args := args c; background := 1;
     inputFile := inputFile c; outputFile := outputFile c |}.

(** Lines 183-196:
    [while (token) { ... token = strtok (NULL, " \n"); }] with [token] the
    head of the list.  The test [strtok (NULL, " \n") == NULL] of the third
    branch pops a token whether or not it succeeds. *)
Fixpoint scan (toks : list string) (c : Command) : Command :=
  match toks with
  | [] => c
  | token :: rest =>
    if String.eqb token "<" then
      match rest with
      | [] => set_inputFile None c
      | path :: rest' => scan rest' (set_inputFile (Some path) c)
      end
    else if String.eqb token ">" then
      match rest with
      | [] => set_outputFile None c
      | path :: rest' => scan rest' (set_outputFile (Some path) c)
      end
    else if String.eqb token "&" then
      match rest with
      | [] => set_background c
      | _ :: rest' => scan rest' (push_arg token c)
      end
    else scan rest (push_arg token c)
  end.

Definition parse_line (input : string) : Command := scan (strtok_all input) no_command.

(** *** The built-ins and the loop of [main] *)

Fixpoint kill_from (n : nat) (i : Z) : M unit :=
  match n with
  | O => ret tt
  | S n' =>
    h ← bg_read i;
    sys (Kill h SIGTERM);;
    kill_from n' (i + 1)
  end.

(** Lines 202-206. *)
Definition builtin_exit : M unit :=
  n ← gets bgCount;
  kill_from (Z.to_nat n) 0;;
  stop (HExit 0).

(** Lines 207-215; [args[1]] is the second argument. *)
Definition builtin_cd (cmd : Command) : M unit :=
  if 1 <? Z.of_nat (length (args cmd)) then
    r ← sys (Chdir (args cmd !! 1%nat));
    if negb (r =? 0) then sys (Perror "cd failed");; ret tt else ret tt
  else
    home ← sys (Getenv "HOME");
    sys (Chdir home);;
    ret tt.

(** Lines 216-219. *)
Definition builtin_status : M unit :=
  v ← gets lastExitStatus;
  sys (Printf ("exit value %d" +:+ LF) [v]);;
  sys Fflush;;
  ret tt.

(** Lines 199-223: [argCount == 0], the three built-ins, and the rest. *)
Definition route (cmd : Command) : M unit :=
  match args cmd with
  | [] => ret tt
  | arg0 :: _ =>
    if String.eqb arg0 "exit" then builtin_exit
    else if String.eqb arg0 "cd" then builtin_cd cmd
    else if String.eqb arg0 "status" then builtin_status
    else executeCommand (args cmd) (background cmd) (inputFile cmd) (outputFile cmd)
  end.

(** Line 175. *)
Definition skipped_line (input : string) : bool :=
  match input with
  | String c _ => Ascii.eqb c "#"%char || Ascii.eqb c (Ascii.ascii_of_nat 10)
  | EmptyString => false
  end.

(** One turn of [while (1)], lines 165-224.  [char *args[MAX_ARGS]] takes [argCount]
    tokens and the closing NULL: with 512 arguments or more a store falls
    outside the array.  No system call happens between such a store and
    the end of the tokenising loop, so the fault is raised after it. *)
Definition loop_body : M unit :=
  checkBackgroundProcesses;;
  prompt;;
  line ← sys (Fgets MAX_INPUT);
  match line with
  | None => sys Clearerr;; ret tt
  | Some input =>
    if skipped_line input then ret tt
    else
      let cmd := parse_line input in
      if MAX_ARGS <=? Z.of_nat (length (args cmd)) then
        stop (HUndef ArgsOutOfBounds)
      else route cmd
  end.

(** Lines 153-163; the masks and flags of the two [sigaction] are left
    out. *)
Definition main_init : M unit :=
  sys (Sigaction SIGTSTP (SIG_FUN "handle_SIGTSTP"));;
  sys (Sigaction SIGINT SIG_IGN);;
  ret tt.

(** [n] turns of the loop. *)
Fixpoint main_loop (n : nat) : M unit :=
  match n with
  | O => ret tt
  | S n' => loop_body;; main_loop n'
  end.

Definition main (n : nat) : M unit := main_init;; main_loop n.

(** SIGTSTP is delivered asynchronously.  A session is a sequence of turns
    of the loop with deliveries of the signal between them. *)
Inductive tick : Type := Turn | Suspend.

Fixpoint session (ts : list tick) : M unit :=
  match ts with
  | [] => ret tt
  | Turn :: ts' => loop_body;; session ts'
  | Suspend :: ts' => handle_SIGTSTP SIGTSTP;; session ts'
  end.

(** ** Running a program against a kernel *)

Record kernel (W : Type) : Type := mkKernel {
  answer : ∀ c : syscall, W → ret_ty c * W
}.
Arguments answer {W} k c w.
Arguments mkKernel {W} answer.

Inductive outcome (A : Type) : Type :=
| Returned (a : A)
| Halted (h : halt).
Arguments Returned {A} a.
Arguments Halted {A} h.

(** What a call was answered, in one type, for the log of a run. *)
Inductive reply : Type :=
| RInt (z : Z)
| RWait (pid status : Z)
| RStr (s : option string)
| RExec (e : option Z).

Definition reify (c : syscall) : ret_ty c → reply :=
  match c return ret_ty c → reply with
  | Waitpid _ _ => λ '(pid, status), RWait pid status
  | Execvp _ _ => RExec
  | Fgets _ => RStr
  | Getenv _ => RStr
  | _ => RInt
  end.

Global Instance reply_eq_dec : EqDecision reply.
Proof. solve_decision. Defined.

Definition event : Type := syscall * reply.
Definition trace : Type := list event.

(** The system calls of a trace, without their answers. *)
Definition calls (t : trace) : list syscall := t.*1.

(** The outcome of the process, the kernel's state afterwards, and the
    system calls issued with their answers, in order. *)
Fixpoint run {W A} (K : kernel W) (p : Prog A) (w : W)
    : outcome A * W * trace :=
  match p with
  | Ret a => (Returned a, w, [])
  | Stop h => (Halted h, w, [])
  | Sys c k =>
    let '(r, w1) := answer K c w in
    let '(o, w2, t) := run K (k r) w1 in
    (o, w2, (c, reify c r) :: t)
  end.

Definition exec {W A} (K : kernel W) (m : M A) (st : ShellState) (w : W)
    : outcome (A * ShellState) * W * trace :=
  run K (m st) w.

Definition outcome_of {W A} (r : outcome A * W * trace) : outcome A := r.1.1.
Definition trace_of {W A} (r : outcome A * W * trace) : trace := r.2.

(** A kernel without state of its own that answers every call of one
    kind the same way. *)
Record answers : Type := mkAnswers {
  on_fork : Z;
  on_open : Z;
  on_execvp : option Z;
  on_waitpid : Z * Z;
  on_fgets : option string;
  on_getenv : option string;
  on_chdir : Z
}.

Definition fixed_answer (a : answers) (c : syscall) : ret_ty c :=
  match c with
  | Fork => on_fork a
  | Open _ _ _ => on_open a
  | Execvp _ _ => on_execvp a
  | Waitpid _ _ => on_waitpid a
  | Fgets _ => on_fgets a
  | Getenv _ => on_getenv a
  | Chdir _ => on_chdir a
  | _ => 0
  end.

Definition fixed_kernel (a : answers) : kernel unit :=
  mkKernel (λ c w, (fixed_answer a c, w)).

(** The shell's view: [fork] gives [pid], the child ends with [status],
    every read gives [line]; HOME is unset and no directory can be
    entered. *)
Definition parent_view (pid status : Z) (line : string) : answers :=
  {| on_fork := pid; on_open := 3; on_execvp := None;
     on_waitpid := (pid, status); on_fgets := Some line;
     on_getenv := None; on_chdir := -1 |}.

(** A child's view: [fork] gave 0. *)
Definition child_view (fd : Z) (image : option Z) : answers :=
  {| on_fork := 0; on_open := fd; on_execvp := image;
     on_waitpid := (-1, 0); on_fgets := None;
     on_getenv := None; on_chdir := -1 |}.

(** [fork] fails. *)
Definition no_fork : answers :=
  {| on_fork := -1; on_open := 3; on_execvp := None;
     on_waitpid := (-1, 0); on_fgets := None;
     on_getenv := None; on_chdir := -1 |}.

(** HOME names a directory that is not there, and the user types [line]. *)
Definition home_missing (line : string) : answers :=
  {| on_fork := 4242; on_open := 3; on_execvp := None;
     on_waitpid := (4242, 0); on_fgets := Some line;
     on_getenv := Some "/nonexistent"; on_chdir := -1 |}.

(** A kernel in the manner of POSIX, seen from the shell.  It keeps the
    children of the shell: a child runs, with the status it is going to
    end with, or has ended and waits to be reaped.  [waitpid] on a child
    that has ended hands out its status and forgets the child, so that the
    next [waitpid] on that pid fails; with WNOHANG a running child gives 0;
    without, the call lasts until the child has ended.  Only positive pids
    are looked up: [fork] hands out no others. *)
Inductive child : Type :=
| Running (fate : Z)
| Zombie (status : Z).

Record world : Type := mkWorld {
  children : gmap Z child;
  next_pid : Z;
  stdin : list string
}.

Definition posix_waitpid (pid options : Z) (w : world) : (Z * Z) * world :=
  if 0 <? pid then
    match children w !! pid with
    | Some (Zombie status) =>
      ((pid, status),
       {| children := delete pid (children w); next_pid := next_pid w;
          stdin := stdin w |})
    | Some (Running fate) =>
      if Z.land options WNOHANG =? 0 then
        ((pid, fate),
         {| children := delete pid (children w); next_pid := next_pid w;
            stdin := stdin w |})
      else ((0, 0), w)
    | None => ((-1, 0), w)
    end
  else ((-1, 0), w).

Definition posix_answer (c : syscall) (w : world) : ret_ty c * world :=
  match c return ret_ty c * world with
  | Fork =>
    (next_pid w,
     {| children := <[next_pid w := Running 0]> (children w);
        next_pid := next_pid w + 1; stdin := stdin w |})
  | Waitpid pid options => posix_waitpid pid options w
  | Fgets _ =>
    match stdin w with
    | line :: rest =>
      (Some line,
       {| children := children w; next_pid := next_pid w; stdin := rest |})
    | [] => (None, w)
    end
  | Execvp _ _ => (None, w)
  | Getenv _ => (None, w)
  | _ => (0, w)
  end.

Definition posix : kernel world := mkKernel posix_answer.

(** A running child ends, at a moment of its own. *)
Definition child_ends (pid : Z) (w : world) : world :=
  match children w !! pid with
  | Some (Running fate) =>
    {| children := <[pid := Zombie fate]> (children w);
       next_pid := next_pid w; stdin := stdin w |}
  | _ => w
  end.

Definition world_of {W A} (r : outcome A * W * trace) : W := r.1.2.

(** The globals after [sleep 1 &] has been given pid 4242, and a kernel
    in which that child has ended with exit code 0. *)
Definition one_job : ShellState :=
  {| foregroundOnly := 0; lastExitStatus := 0;
     bgProcesses := <[0%nat := 4242]> (bgProcesses initial_state);
     bgCount := 1 |}.

Definition job_ended : world :=
  {| children := {[4242 := Zombie 0]}; next_pid := 4243; stdin := [] |}.

(** ** Vocabulary of the statements *)

(** The handles in the table. *)
Definition tracked (st : ShellState) : list Z :=
  take (Z.to_nat (bgCount st)) (bgProcesses st).

(** The pids a trace reports as done, the pids its [waitpid] calls handed
    out, and its [waitpid] calls. *)
Definition reports (t : trace) : list Z :=
  omap (λ e : event,
          match e.1 with
          | Printf fmt [pid] =>
            if String.eqb fmt "background pid %d is done: " then Some pid else None
          | _ => None
          end) t.

Definition reaped (t : trace) : list Z :=
  omap (λ e : event,
          match e with
          | (Waitpid _ _, RWait pid _) => if 0 <? pid then Some pid else None
          | _ => None
          end) t.

Definition polls (t : trace) : list syscall :=
  List.filter (λ c, match c with Waitpid _ _ => true | _ => false end) (calls t).

(** What a scan of the handles [hs] with non-blocking [waitpid] gets out
    of the children [ch] of the POSIX kernel: the pids handed out, and the
    children left. *)
Fixpoint poll (hs : list Z) (ch : gmap Z child) : list Z * gmap Z child :=
  match hs with
  | [] => ([], ch)
  | h :: hs' =>
    match (if 0 <? h then ch !! h else None) with
    | Some (Zombie _) =>
      let '(done, ch') := poll hs' (delete h ch) in (h :: done, ch')
    | _ => poll hs' ch
    end
  end.

(** How the tokenising loop cuts a line: a word that is none of [<], [>],
    [&]; a redirection with its path; or an [&] that is not the last token
    together with the token after it, which the look-ahead swallows. *)
Inductive chunk : Type :=
| CWord (w : string)
| CIn (path : string)
| COut (path : string)
| CAmp (swallowed : string).

Definition chunk_tokens (c : chunk) : list string :=
  match c with
  | CWord w => [w]
  | CIn path => ["<"; path]
  | COut path => [">"; path]
  | CAmp swallowed => ["&"; swallowed]
  end.

Definition ordinary (w : string) : bool :=
  negb (String.eqb w "<") && negb (String.eqb w ">") && negb (String.eqb w "&").

Definition chunk_ok (c : chunk) : Prop :=
  match c with
  | CWord w => ordinary w = true
  | _ => True
  end.

(** What a chunk contributes to [args]. *)
Definition chunk_args (c : chunk) : list string :=
  match c with
  | CWord w => [w]
  | CAmp _ => ["&"]
  | _ => []
  end.

(** The tokens of a line are chunks, then nothing, or one last [&], [<] or
    [>] with nothing after it. *)
Inductive line_end : Type := EndPlain | EndAmp | EndIn | EndOut.

Definition end_tokens (e : line_end) : list string :=
  match e with
  | EndPlain => []
  | EndAmp => ["&"]
  | EndIn => ["<"]
  | EndOut => [">"]
  end.

(** What a chunk, and the end of the line, do to the locals of [main]. *)
Definition chunk_effect (c : chunk) (cmd : Command) : Command :=
  match c with
  | CWord w => push_arg w cmd
  | CIn path => set_inputFile (Some path) cmd
  | COut path => set_outputFile (Some path) cmd
  | CAmp _ => push_arg "&" cmd
  end.

Definition end_effect (e : line_end) (cmd : Command) : Command :=
  match e with
  | EndPlain => cmd
  | EndAmp => set_background cmd
  | EndIn => set_inputFile None cmd
  | EndOut => set_outputFile None cmd
  end.

Definition chunked (cs : list chunk) (e : line_end) (toks : list string) : Prop :=
  Forall chunk_ok cs ∧ toks = (cs ≫= chunk_tokens) ++ end_tokens e.


(** What one redirection may leave in the trace of the child: nothing when
    no path was given; a failed [open] and its report; or an [open]
    followed at once by [dup2] onto the standard stream and [close] of the
    descriptor.  The boolean says whether the child goes on. *)
Inductive redir_events (flags : list oflag) (mode : option Z) (msg : string)
    (target : Z) : option string → trace → bool → Prop :=
| redir_absent :
    redir_events flags mode msg target None [] true
| redir_failed path r :
    redir_events flags mode msg target (Some path)
      [(Open path flags mode, RInt (-1)); (Perror msg, RInt r)] false
| redir_done path fd r1 r2 :
    fd ≠ -1 →
    redir_events flags mode msg target (Some path)
      [(Open path flags mode, RInt fd); (Dup2 fd target, RInt r1);
       (Close fd, RInt r2)] true.

Definition is_fd_call (c : syscall) : bool :=
  match c with
  | Open _ _ _ | Dup2 _ _ | Close _ => true
  | _ => false
  end.

Definition no_fd_calls (t : trace) : Prop :=
  forallb (λ e : event, negb (is_fd_call e.1)) t = true.

(** The announcement of a new background job, printed just before the job
    is entered into the table. *)
Definition announces_background (e : event) : bool :=
  match e.1 with
  | Printf fmt _ => String.eqb fmt ("background pid is %d" +:+ LF)
  | _ => false
  end.

(** How many background jobs a trace announces. *)
Definition announced (t : trace) : Z :=
  Z.of_nat (length (List.filter announces_background t)).

(** The table is the 50-entry array and the count points into it or just
    behind it. *)
Definition wf_table (st : ShellState) : Prop :=
  0 ≤ bgCount st ≤ BG_CAPACITY ∧
  length (bgProcesses st) = Z.to_nat BG_CAPACITY.

(** A piece of code that announces nothing, leaves the globals alone and
    can only stop on a load outside the table. *)
Definition quiet_frame {A} (st : ShellState) (t : trace)
    (o : outcome (A * ShellState)) : Prop :=
  announced t = 0 ∧
  match o with
  | Returned (_, st') => st' = st
  | Halted h => h = HUndef BgReadOutOfBounds
  end.

(** What one turn of the loop, or one external command, does to the
    foreground-only flag and to the table: the flag stays; the count grows
    by the number of announcements, which is 0 or 1, and 0 while the flag
    is set; the only store outside the table is the append after an
    announcement when the count is not below the capacity. *)
Definition step_post {A} (st : ShellState) (t : trace)
    (o : outcome (A * ShellState)) : Prop :=
  (foregroundOnly st ≠ 0 → announced t = 0) ∧
  0 ≤ announced t ≤ 1 ∧
  match o with
  | Returned (_, st') =>
    foregroundOnly st' = foregroundOnly st ∧
    length (bgProcesses st') = length (bgProcesses st) ∧
    bgCount st' = bgCount st + announced t ∧
    (announced t = 0 → bgProcesses st' = bgProcesses st) ∧
    (announced t = 1 → 0 ≤ bgCount st < BG_CAPACITY)
  | Halted (HUndef BgWriteOutOfBounds) =>
    announced t = 1 ∧ ¬ (0 ≤ bgCount st < BG_CAPACITY)
  | Halted _ => announced t = 0
  end.

(** What a whole session does to the table: the count has grown by the
    number of announcements; the session stops on a store outside the
    table exactly when that sum has passed the capacity. *)
Definition session_post {A} (st : ShellState) (t : trace)
    (o : outcome (A * ShellState)) : Prop :=
  match o with
  | Returned (_, st') =>
    wf_table st' ∧ bgCount st' = bgCount st + announced t
  | Halted (HUndef BgWriteOutOfBounds) =>
    bgCount st + announced t = BG_CAPACITY + 1
  | Halted _ => bgCount st + announced t ≤ BG_CAPACITY
  end.

(** Where an [exit] of the process running the loop can come from: the
    [exit] built-in, with status 0, typed on the line just read; a failed
    [fork]; or the process being a forked child. *)
Definition exit_origin {A} (t : trace) (o : outcome A) : Prop :=
  ∀ code, o = Halted (HExit code) →
    (code = 0 ∧
     ∃ line, (Fgets MAX_INPUT, RStr (Some line)) ∈ t ∧
             head (args (parse_line line)) = Some "exit") ∨
    (Fork, RInt (-1)) ∈ t ∨
    (Fork, RInt 0) ∈ t.

(** The child's trace after [fork]: the input redirection, then, if the
    child is still alive, the output redirection, then, if it is still
    alive, calls that touch no descriptor.  A failed [open] is the last
    thing the child does before it exits with status 1. *)
Definition child_redirects {A} (inF outF : option string)
    (t : trace) (o : outcome A) : Prop :=
  ∃ tin okin rest,
    t = tin ++ rest ∧
    redir_events [O_RDONLY] None "cannot open input file" STDIN_FILENO inF tin okin ∧
    if okin then
      ∃ tout okout rest',
        rest = tout ++ rest' ∧
        redir_events [O_WRONLY; O_CREAT; O_TRUNC] (Some 420)
          "cannot open output file" STDOUT_FILENO outF tout okout ∧
        if okout then no_fd_calls rest'
        else rest' = [] ∧ o = Halted (HExit 1)
    else rest = [] ∧ o = Halted (HExit 1).

(** ** Reasoning about every kernel at once

    [wp p Q] holds when [Q] is true of the trace and the outcome of [p]
    whatever the kernel answers to each call. *)

Fixpoint wp {A} (p : Prog A) (Q : trace → outcome A → Prop) : Prop :=
  match p with
  | Ret a => Q [] (Returned a)
  | Stop h => Q [] (Halted h)
  | Sys c k => ∀ r, wp (k r) (λ t o, Q ((c, reify c r) :: t) o)
  end.

Definition wpM {A} (m : M A) (st : ShellState)
    (Q : trace → outcome (A * ShellState) → Prop) : Prop :=
  wp (m st) Q.

(** ** Vocabulary of the further properties *)

(** What one delivery of SIGTSTP does to the flag (lines 23-29). *)
Definition toggle (flag : Z) : Z := if flag =? 0 then 1 else 0.

(** The notice of the handler for the flag it finds. *)
Definition notice (flag : Z) : string :=
  if flag =? 0 then LF +:+ "Entering foreground-only mode (& is now ignored)" +:+ LF
  else LF +:+ "Exiting foreground-only mode" +:+ LF.

(** The deliveries of SIGTSTP in a session. *)
Definition suspends (ts : list tick) : nat :=
  length (List.filter (λ t, match t with Suspend => true | Turn => false end) ts).

(** Kinds of calls.  The prompt of [prompt]; the calls of a reap cycle;
    the calls that can follow the reading of the line in a turn; the calls
    that only the child branch of [executeCommand] contains. *)
Definition is_prompt (c : syscall) : bool :=
  match c with
  | Printf fmt [] => String.eqb fmt ": "
  | _ => false
  end.

Definition is_report (c : syscall) : bool :=
  match c with
  | Printf fmt [_] => String.eqb fmt "background pid %d is done: "
  | _ => false
  end.

Definition reap_call (c : syscall) : bool :=
  match c with
  | Waitpid _ options => options =? WNOHANG
  | Printf fmt [_] =>
    String.eqb fmt "background pid %d is done: " ||
    String.eqb fmt ("exit value %d" +:+ LF) ||
    String.eqb fmt ("terminated by signal %d" +:+ LF)
  | Fflush => true
  | _ => false
  end.

Definition after_read_call (c : syscall) : bool :=
  match c with
  | Fgets _ => false
  | Printf _ _ => negb (is_prompt c) && negb (is_report c)
  | Waitpid _ options => negb (options =? WNOHANG)
  | _ => true
  end.

Definition child_only (c : syscall) : bool :=
  match c with
  | Open _ _ _ | Dup2 _ _ | Close _ | Sigaction _ _ | Execvp _ _ => true
  | _ => false
  end.

(** Every call of the trace is of kind [P]. *)
Definition only (P : syscall → bool) (t : trace) : Prop :=
  forallb P (calls t) = true.

(** A line that gives the loop nothing to run: the read failed, the line
    is a comment or empty (line 175), or it leaves [argCount] at 0 (line
    199). *)
Definition idle_line (line : option string) : Prop :=
  match line with
  | None => True
  | Some input => skipped_line input = true ∨ args (parse_line input) = []
  end.

(** The shape of a turn that got as far as reading: the reap cycle, the
    prompt and its flush, the read, and what the line sets off. *)
Definition turn_shape (st : ShellState) (t : trace)
    (o : outcome (unit * ShellState)) : Prop :=
  ∃ t1 r1 r2 line t3,
    t = t1 ++ [(Printf ": " [], RInt r1); (Fflush, RInt r2);
               (Fgets MAX_INPUT, RStr line)] ++ t3 ∧
    only reap_call t1 ∧
    only after_read_call t3 ∧
    (idle_line line →
     o = Returned ((), st) ∧
     calls t3 = match line with None => [Clearerr] | Some _ => [] end).

(** The calls of a turn that runs nothing. *)
Definition idle_call (c : syscall) : bool :=
  reap_call c || is_prompt c ||
  match c with
  | Fgets _ | Clearerr => true
  | _ => false
  end.

Definition is_clearerr (c : syscall) : bool :=
  match c with
  | Clearerr => true
  | _ => false
  end.

Definition not_prompt (c : syscall) : bool := negb (is_prompt c).
Definition not_prompt_nor_report (c : syscall) : bool :=
  negb (is_prompt c) && negb (is_report c).

Definition not_child_only (c : syscall) : bool := negb (child_only c).

(** The process is a forked child, or has made no call of the child
    branch. *)
Definition child_or_clean (t : trace) : Prop :=
  (Fork, RInt 0) ∈ t ∨ only not_child_only t.

(** The first arguments that [main] handles itself (lines 202, 207, 216),
    and the calls the three built-ins make. *)
Definition is_builtin (arg0 : string) : bool :=
  String.eqb arg0 "exit" || String.eqb arg0 "cd" || String.eqb arg0 "status".

Definition builtin_call (c : syscall) : bool :=
  match c with
  | Kill _ _ | Chdir _ | Getenv _ | Perror _ | Printf _ _ | Fflush => true
  | _ => false
  end.

Definition is_fork (c : syscall) : bool :=
  match c with
  | Fork => true
  | _ => false
  end.

Definition not_fork (c : syscall) : bool := negb (is_fork c).

(** The pids a trace announces as new background jobs, in order. *)
Definition announced_pids (t : trace) : list Z :=
  omap (λ e : event,
          match e.1 with
          | Printf fmt [pid] =>
            if String.eqb fmt ("background pid is %d" +:+ LF) then Some pid else None
          | _ => None
          end) t.

(** What [lastExitStatus] takes from a wait status (lines 132-138). *)
Definition decode_status (status : Z) : Z :=
  if WIFEXITED status then WEXITSTATUS status else WTERMSIG status.

(** The value a trace leaves in [lastExitStatus], from the value [v]
    before it: each blocking [waitpid] replaces it by what its status
    decodes to. *)
Definition last_foreground (t : trace) (v : Z) : Z :=
  foldl (λ v (e : event),
           match e with
           | (Waitpid _ options, RWait _ status) =>
             if options =? 0 then decode_status status else v
           | _ => v
           end) v t.

(** The table after a trace: still well formed, and grown by the pids
    the trace announces. *)
Definition table_grows (st : ShellState) (t : trace) (st' : ShellState) : Prop :=
  wf_table st → wf_table st' ∧ tracked st' = tracked st ++ announced_pids t.

Definition status_follows (st : ShellState) (t : trace) (st' : ShellState) : Prop :=
  lastExitStatus st' = last_foreground t (lastExitStatus st).

(** A relation between the globals before and after a trace, as a
    postcondition. *)
Definition rel_post {A} (R : ShellState → trace → ShellState → Prop)
    (st : ShellState) (t : trace) (o : outcome (A * ShellState)) : Prop :=
  ∀ a st', o = Returned (a, st') → R st t st'.

(** A trace of calls that are neither announcements nor blocking waits
    changes neither observation. *)
Definition plain_call (c : syscall) : bool :=
  match c with
  | Printf fmt _ => negb (String.eqb fmt ("background pid is %d" +:+ LF))
  | Waitpid _ options => negb (options =? 0)
  | _ => true
  end.

(** The calls of the child branch of [executeCommand]. *)
Definition child_call (c : syscall) : bool :=
  child_only c ||
  match c with
  | Perror _ => true
  | _ => false
  end.

(** What is left of the calls of a process after its [fork] and its
    descriptor calls. *)
Fixpoint after_fds (cs : list syscall) : list syscall :=
  match cs with
  | [] => []
  | c :: cs' => if is_fork c || is_fd_call c then after_fds cs' else cs
  end.

(** A word: a non-empty string without space or newline.  A line typed in
    the plainest way: words with one space between them, and the newline
    that [fgets] keeps. *)
Fixpoint no_delim (s : string) : bool :=
  match s with
  | EmptyString => true
  | String c s' => negb (is_delim c) && no_delim s'
  end.

Definition word (s : string) : bool :=
  negb (String.eqb s EmptyString) && no_delim s.

Definition typed (toks : list string) : string :=
  String.concat " " toks +:+ LF.

(** The path of the last input, and of the last output, redirection
    among chunks. *)
Definition last_in (cs : list chunk) : option string :=
  last (omap (λ c, match c with CIn path => Some path | _ => None end) cs).

Definition last_out (cs : list chunk) : option string :=
  last (omap (λ c, match c with COut path => Some path | _ => None end) cs).

(** The shortest line that overruns [args]: 512 one-letter words with one
    space between them, 1023 characters, within what [fgets] may return. *)
Definition overlong_line : string :=
  String.concat " " (replicate 512 "a").

(** The turns of a session, the forks of a trace, and: every pid
    announced is one that a [fork] of the trace returned. *)
Definition turns (ts : list tick) : nat :=
  length (List.filter (λ t, match t with Turn => true | Suspend => false end) ts).

Definition forks (t : trace) : nat := length (List.filter is_fork (calls t)).

Definition announced_were_forked (t : trace) : Prop :=
  ∀ pid, pid ∈ announced_pids t → (Fork, RInt pid) ∈ t.

(** What one command adds: at most one fork, and no announcement of a pid
    that no fork returned; and what the rest of a turn adds. *)
Definition at_most_one_fork (t : trace) : Prop :=
  (forks t ≤ 1)%nat ∧ announced_were_forked t.

Definition without_fork (t : trace) : Prop :=
  forks t = 0%nat ∧ announced_were_forked t.

(** ** Proof automation *)

(** Unfolding the monad under [wp], one layer at a time. *)
Ltac wp_simpl :=
  repeat (progress (unfold wpM, mbind, M_bind, bindM, sys, ret, mret, M_ret, stop,
                    gets, modify;
                    cbn [wp pbind reify])).

Ltac wp_case :=
  match goal with
  | |- ∀ _ : ret_ty _, _ => let r := fresh "r" in intro r; cbn in r
  | |- wp ?p _ =>
    match p with
    | context [if ?c then _ else _] => destruct c eqn:?
    | context [match ?x with Some _ => _ | None => _ end] => destruct x eqn:?
    | context [match ?x with (_, _) => _ end] => destruct x eqn:?
    end
  end.

Ltac wp_auto := repeat (wp_simpl; try wp_case).

(** Membership and equality facts about a trace that has been computed. *)
Ltac trace_facts :=
  repeat match goal with
         | H : _ ∈ _ :: _ |- _ => apply elem_of_cons in H; destruct H
         | H : _ ∈ [] |- _ => by apply elem_of_nil in H
         | H : (_, _) = (_, _) |- _ => first [discriminate H | injection H as ? ?]
         | H : Some _ = Some _ |- _ => first [discriminate H | injection H as ?]
         | H : RInt _ = RInt _ |- _ => injection H as ?
         end.

Ltac wp_leaf :=
  repeat match goal with
         | H : (_ =? _) = true |- _ => apply Z.eqb_eq in H
         | H : (_ =? _) = false |- _ => apply Z.eqb_neq in H
         end;
  repeat split; intros; simpl in *; trace_facts; simplify_eq; try done; try lia.

Ltac step_leaf :=
  unfold step_post, quiet_frame;
  repeat match goal with
         | H : (_ =? _) = true |- _ => apply Z.eqb_eq in H
         | H : (_ =? _) = false |- _ => apply Z.eqb_neq in H
         | H : (_ <? _) = true |- _ => apply Z.ltb_lt in H
         | H : (_ <? _) = false |- _ => apply Z.ltb_ge in H
         | H : (_ <=? _) = true |- _ => apply Z.leb_le in H
         | H : (_ <=? _) = false |- _ => apply Z.leb_gt in H
         | H : _ && _ = true |- _ => apply andb_true_iff in H; destruct H
         | H : _ && _ = false |- _ => apply andb_false_iff in H
         | H : negb _ = true |- _ => apply negb_true_iff in H
         | H : negb _ = false |- _ => apply negb_false_iff in H
         end;
  repeat match goal with
         | |- context [announced ?t] =>
           let v := eval vm_compute in (announced t) in
           change (announced t) with v
         end;
  cbn; rewrite ?length_insert;
  repeat split; intros; try done; try lia.

Ltac use_reap_IH IH :=
  match goal with
  | |- context [run posix (reap_from ?n ?j ?st) ?w1] =>
    specialize (IH j w1 ltac:(lia) ltac:(lia));
    destruct (run posix (reap_from n j st) w1) as [[? ?] ?]
  end.

Ltac calls_facts :=
  repeat match goal with
         | H : _ ∈ _ :: _ |- _ => apply elem_of_cons in H; destruct H
         | H : _ ∈ [] |- _ => by apply elem_of_nil in H
         | H : Execvp _ _ = _ |- _ => first [discriminate H | injection H as ? ?]
         end.


(** * Properties *)

(** ** The interpreter and the weakest precondition *)

Lemma wp_mono {A} (p : Prog A) (Q Q' : trace → outcome A → Prop) :
  (∀ t o, Q t o → Q' t o) → wp p Q → wp p Q'.
Proof.
  revert Q Q'. induction p as [a | c k IH | h]; simpl; intros Q Q' HQ Hp.
  - by apply HQ.
  - intros r. eapply IH; [| apply Hp]. intros t o. apply HQ.
  - by apply HQ.
Qed.

Lemma wp_any {A} (p : Prog A) (Q : trace → outcome A → Prop) :
  (∀ t o, Q t o) → wp p Q.
Proof.
  revert Q. induction p as [a | c k IH | h]; simpl; intros Q HQ; try done.
  intros r. apply IH. intros t o. apply HQ.
Qed.

Lemma wp_run {W A} (K : kernel W) (p : Prog A) Q (w : W) :
  wp p Q → Q (run K p w).2 (run K p w).1.1.
Proof.
  revert Q w. induction p as [a | c k IH | h]; simpl; intros Q w Hp; try done.
  destruct (answer K c w) as [r w1].
  specialize (IH r _ w1 (Hp r)).
  destruct (run K (k r) w1) as [[o w2] t]. exact IH.
Qed.

Lemma wp_pbind {A B} (p : Prog A) (f : A → Prog B) Q :
  wp p (λ t o,
        match o with
        | Returned a => wp (f a) (λ t' o', Q (t ++ t') o')
        | Halted h => Q t (Halted h)
        end) →
  wp (pbind p f) Q.
Proof.
  revert Q. induction p as [a | c k IH | h]; simpl; intros Q Hp; try done.
  intros r. apply IH. eapply wp_mono; [| apply (Hp r)].
  intros t [a | h]; simpl; done.
Qed.

Lemma run_pbind {W A B} (K : kernel W) (p : Prog A) (f : A → Prog B) (w : W) :
  run K (pbind p f) w =
  match run K p w with
  | (Returned a, w1, t1) =>
    let '(o, w2, t2) := run K (f a) w1 in (o, w2, t1 ++ t2)
  | (Halted h, w1, t1) => (Halted h, w1, t1)
  end.
Proof.
  revert w. induction p as [a | c k IH | h]; simpl; intros w.
  - by destruct (run K (f a) w) as [[o w2] t2].
  - destruct (answer K c w) as [r w1]. rewrite IH.
    destruct (run K (k r) w1) as [[[a | h] w2] t1]; [| done].
    by destruct (run K (f a) w2) as [[o w3] t2].
  - done.
Qed.

Lemma wpM_bind {A B} (m : M A) (f : A → M B) st Q :
  wpM m st (λ t o,
            match o with
            | Returned (a, st') => wpM (f a) st' (λ t' o', Q (t ++ t') o')
            | Halted h => Q t (Halted h)
            end) →
  wpM (m ≫= f) st Q.
Proof.
  intros H. unfold wpM, mbind, M_bind, bindM. apply wp_pbind.
  eapply wp_mono; [| apply H]. by intros t [[a st'] | h].
Qed.

Lemma wpM_exec {W A} (K : kernel W) (m : M A) st Q (w : W) :
  wpM m st Q → Q (trace_of (exec K m st w)) (outcome_of (exec K m st w)).
Proof. apply wp_run. Qed.

Lemma exec_bind {W A B} (K : kernel W) (m : M A) (f : A → M B) st (w : W) :
  exec K (m ≫= f) st w =
  match exec K m st w with
  | (Returned (a, st1), w1, t1) =>
    let '(o, w2, t2) := exec K (f a) st1 w1 in (o, w2, t1 ++ t2)
  | (Halted h, w1, t1) => (Halted h, w1, t1)
  end.
Proof.
  unfold exec, mbind, M_bind, bindM. rewrite run_pbind.
  by destruct (run K (m st) w) as [[[[a st1] | h] w1] t1].
Qed.

Lemma wpM_seq {A B} (m : M A) (f : A → M B) st
    (Q1 : trace → outcome (A * ShellState) → Prop)
    (Q : trace → outcome (B * ShellState) → Prop) :
  wpM m st Q1 →
  (∀ t1 a st1, Q1 t1 (Returned (a, st1)) →
               wpM (f a) st1 (λ t2 o2, Q (t1 ++ t2) o2)) →
  (∀ t1 h, Q1 t1 (Halted h) → Q t1 (Halted h)) →
  wpM (m ≫= f) st Q.
Proof.
  intros Hm Hf Hh. apply wpM_bind. eapply wp_mono; [| apply Hm].
  intros t [[a st1] | h] HQ1; [by apply Hf | by apply Hh].
Qed.

Lemma announced_app (t1 t2 : trace) :
  announced (t1 ++ t2) = announced t1 + announced t2.
Proof. unfold announced. rewrite List.filter_app, length_app. lia. Qed.

Lemma announced_nonneg (t : trace) : 0 ≤ announced t.
Proof. unfold announced. lia. Qed.

(** ** Process creation and image replacement *)

(** C7: when [fork] fails the shell reports it and exits with status 1;
    when [execvp] fails in the child, the child reports it and exits with
    status 1, and in the parent [executeCommand] never exits. *)
Theorem fork_failure_fatal_exec_failure_local
    {W} (K : kernel W) (w : W) (st : ShellState)
    (a : list string) (bg : Z) (inF outF : option string) :
  let r := exec K (executeCommand a bg inF outF) st w in
  (head (trace_of r) = Some (Fork, RInt (-1)) →
     calls (trace_of r) = [Fork; Perror "fork() failed"] ∧
     outcome_of r = Halted (HExit 1)) ∧
  (head (trace_of r) = Some (Fork, RInt 0) →
     (Execvp (head a) a, RExec (Some (-1))) ∈ trace_of r →
     last (calls (trace_of r)) = Some (Perror "command not found") ∧
     outcome_of r = Halted (HExit 1)) ∧
  (∀ pid, head (trace_of r) = Some (Fork, RInt pid) → pid ≠ -1 → pid ≠ 0 →
     ∀ code, outcome_of r ≠ Halted (HExit code)).
Proof.
  cbv zeta.
  apply (wpM_exec K (executeCommand a bg inF outF) st
           (λ t o,
              (head t = Some (Fork, RInt (-1)) →
               calls t = [Fork; Perror "fork() failed"] ∧ o = Halted (HExit 1)) ∧
              (head t = Some (Fork, RInt 0) →
               (Execvp (head a) a, RExec (Some (-1))) ∈ t →
               last (calls t) = Some (Perror "command not found") ∧
               o = Halted (HExit 1)) ∧
              (∀ pid, head t = Some (Fork, RInt pid) → pid ≠ -1 → pid ≠ 0 →
               ∀ code, o ≠ Halted (HExit code)))).
  unfold executeCommand, child_branch, parent_branch, redirect_input,
    redirect_output, execvp, bg_append.
  wp_auto.
  all: wp_leaf.
Qed.

Lemma fork_failure_fatal_exec_failure_local_witness :
  (let r := exec (fixed_kernel no_fork)
              (executeCommand ["ls"] 0 None None) initial_state () in
   calls (trace_of r) = [Fork; Perror "fork() failed"] ∧
   outcome_of r = Halted (HExit 1)) ∧
  (let r := exec (fixed_kernel (child_view 3 (Some (-1))))
              (executeCommand ["nosuchprogram"] 0 None None) initial_state () in
   last (calls (trace_of r)) = Some (Perror "command not found") ∧
   outcome_of r = Halted (HExit 1)) ∧
  (let r := exec (fixed_kernel (parent_view 4242 256 ("ls" +:+ LF)))
              (executeCommand ["nosuchprogram"] 0 None None) initial_state () in
   outcome_of r ≠ Halted (HExit 1)).
Proof.
  split; [| split].
  - apply (fork_failure_fatal_exec_failure_local
             (fixed_kernel no_fork) () initial_state
             ["ls"] 0 None None).
    reflexivity.
  - apply (fork_failure_fatal_exec_failure_local
             (fixed_kernel (child_view 3 (Some (-1)))) () initial_state
             ["nosuchprogram"] 0 None None).
    + reflexivity.
    + vm_compute. repeat constructor.
  - apply (fork_failure_fatal_exec_failure_local
             (fixed_kernel (parent_view 4242 256 ("ls" +:+ LF))) () initial_state
             ["nosuchprogram"] 0 None None) with (pid := 4242).
    + reflexivity.
    + lia.
    + lia.
Defined.

(** ** Redirection *)

Lemma wpM_redirect_input (inF : option string) (st : ShellState) :
  wpM (redirect_input inF) st
    (λ t o, ∃ ok,
       redir_events [O_RDONLY] None "cannot open input file" STDIN_FILENO inF t ok ∧
       o = if ok then Returned ((), st) else Halted (HExit 1)).
Proof.
  unfold redirect_input. wp_auto.
  - apply Z.eqb_eq in Heqb as ->. exists false. split; [constructor | done].
  - apply Z.eqb_neq in Heqb. exists true. split; [by constructor | done].
  - exists true. split; [constructor | done].
Qed.

Lemma wpM_redirect_output (outF : option string) (st : ShellState) :
  wpM (redirect_output outF) st
    (λ t o, ∃ ok,
       redir_events [O_WRONLY; O_CREAT; O_TRUNC] (Some 420)
         "cannot open output file" STDOUT_FILENO outF t ok ∧
       o = if ok then Returned ((), st) else Halted (HExit 1)).
Proof.
  unfold redirect_output. wp_auto.
  - apply Z.eqb_eq in Heqb as ->. exists false. split; [constructor | done].
  - apply Z.eqb_neq in Heqb. exists true. split; [by constructor | done].
  - exists true. split; [constructor | done].
Qed.

Lemma wpM_child_redirects (a : list string) (bg : Z) (inF outF : option string)
    (st : ShellState) :
  wpM (child_branch a bg inF outF) st (child_redirects inF outF).
Proof.
  unfold child_branch. apply wpM_bind.
  eapply wp_mono; [| apply wpM_redirect_input].
  intros tin o (okin & Hin & ->). destruct okin.
  - apply wpM_bind. eapply wp_mono; [| apply wpM_redirect_output].
    intros tout o (okout & Hout & ->). destruct okout.
    + unfold execvp. wp_auto.
      all: exists tin, true; eexists; split; [reflexivity |]; split; [done |].
      all: exists tout, true; eexists; split; [reflexivity |]; split; [done |].
      all: reflexivity.
    + exists tin, true, tout. split; [done |]. split; [done |].
      exists tout, false, []. by rewrite app_nil_r.
  - exists tin, false, []. rewrite app_nil_r. done.
Qed.

(** C6: in the child an input path is opened read-only and an output path
    write-only with create and truncate and mode 0644; an opened
    descriptor is duplicated onto the standard stream and closed at once;
    an absent path leaves no call; a failed [open] is reported and the
    child exits with status 1.  The shell itself opens nothing and does
    not exit when [fork] succeeded. *)
Theorem redirection_in_child
    {W} (K : kernel W) (w : W) (st : ShellState)
    (a : list string) (bg : Z) (inF outF : option string) :
  let r := exec K (executeCommand a bg inF outF) st w in
  (head (trace_of r) = Some (Fork, RInt 0) →
     child_redirects inF outF (tail (trace_of r)) (outcome_of r)) ∧
  (∀ pid, head (trace_of r) = Some (Fork, RInt pid) → pid ≠ 0 →
     no_fd_calls (trace_of r) ∧
     (pid ≠ -1 → ∀ code, outcome_of r ≠ Halted (HExit code))).
Proof.
  cbv zeta.
  apply (wpM_exec K (executeCommand a bg inF outF) st
           (λ t o,
              (head t = Some (Fork, RInt 0) →
               child_redirects inF outF (tail t) o) ∧
              (∀ pid, head t = Some (Fork, RInt pid) → pid ≠ 0 →
               no_fd_calls t ∧ (pid ≠ -1 → ∀ code, o ≠ Halted (HExit code))))).
  unfold executeCommand. wp_simpl. intros pid. cbn in pid.
  destruct (pid =? -1) eqn:E1; [| destruct (pid =? 0) eqn:E0].
  - wp_auto. wp_leaf.
  - eapply wp_mono; [| apply wpM_child_redirects].
    intros t o Hc. apply Z.eqb_eq in E0. split; [done |].
    intros pid' [= <-]. done.
  - unfold parent_branch, bg_append. wp_auto. all: wp_leaf.
Qed.

Lemma redirection_in_child_witness :
  child_redirects (Some "in.txt") (Some "out.txt")
    (tail (trace_of (exec (fixed_kernel (child_view 3 None))
                       (executeCommand ["cat"] 0 (Some "in.txt") (Some "out.txt"))
                       initial_state ())))
    (outcome_of (exec (fixed_kernel (child_view 3 None))
                   (executeCommand ["cat"] 0 (Some "in.txt") (Some "out.txt"))
                   initial_state ())) ∧
  child_redirects (Some "missing") None
    (tail (trace_of (exec (fixed_kernel (child_view (-1) None))
                       (executeCommand ["cat"] 0 (Some "missing") None)
                       initial_state ())))
    (outcome_of (exec (fixed_kernel (child_view (-1) None))
                   (executeCommand ["cat"] 0 (Some "missing") None)
                   initial_state ())) ∧
  no_fd_calls (trace_of (exec (fixed_kernel (parent_view 4242 256 ("ls" +:+ LF)))
                           (executeCommand ["cat"] 0 (Some "missing") None)
                           initial_state ())).
Proof.
  split; [| split].
  - apply (redirection_in_child (fixed_kernel (child_view 3 None)) ()
             initial_state ["cat"] 0 (Some "in.txt") (Some "out.txt")).
    reflexivity.
  - apply (redirection_in_child (fixed_kernel (child_view (-1) None)) ()
             initial_state ["cat"] 0 (Some "missing") None).
    reflexivity.
  - apply (redirection_in_child (fixed_kernel (parent_view 4242 256 ("ls" +:+ LF))) ()
             initial_state ["cat"] 0 (Some "missing") None) with (pid := 4242).
    + reflexivity.
    + lia.
Defined.

(** ** The table of background jobs and the foreground-only flag *)

Lemma reap_from_quiet (n : nat) (i : Z) (st : ShellState) :
  wpM (reap_from n i) st (quiet_frame st).
Proof.
  revert i. induction n as [| n IH]; intros i; [by wp_simpl |].
  cbn [reap_from].
  eapply wpM_seq with (Q1 := quiet_frame st).
  - unfold bg_read. wp_auto; by split.
  - intros t1 h st1 [Ht1 ->].
    eapply wpM_seq with (Q1 := quiet_frame st).
    + wp_simpl. intros [pid status]. by split.
    + intros t2 [pid status] st2 [Ht2 ->].
      eapply wpM_seq with (Q1 := quiet_frame st).
      * unfold report_status. wp_auto; by split.
      * intros t3 [] st3 [Ht3 ->].
        eapply wp_mono; [| apply IH].
        intros t4 o [Ht4 Ho]. split; [| done].
        rewrite !announced_app. lia.
      * intros t3 h' [Ht3 Hh]. split; [| done]. rewrite !announced_app. lia.
    + intros t2 h' [Ht2 Hh]. split; [| done]. rewrite !announced_app. lia.
  - intros t1 h' [Ht1 Hh]. by split.
Qed.

Lemma prompt_quiet (st : ShellState) : wpM prompt st (quiet_frame st).
Proof. unfold prompt. wp_auto. by split. Qed.

Lemma checkBackgroundProcesses_quiet (st : ShellState) :
  wpM checkBackgroundProcesses st (quiet_frame st).
Proof. unfold checkBackgroundProcesses. wp_simpl. apply reap_from_quiet. Qed.

Lemma kill_from_quiet (n : nat) (i : Z) (st : ShellState) :
  wpM (kill_from n i) st (quiet_frame st).
Proof.
  revert i. induction n as [| n IH]; intros i; [by wp_simpl |].
  cbn [kill_from].
  eapply wpM_seq with (Q1 := quiet_frame st).
  - unfold bg_read. wp_auto; by split.
  - intros t1 h st1 [Ht1 ->].
    eapply wpM_seq with (Q1 := quiet_frame st).
    + wp_simpl. intros r. by split.
    + intros t2 r st2 [Ht2 ->].
      eapply wp_mono; [| apply IH].
      intros t3 o [Ht3 Ho]. split; [| done]. rewrite !announced_app. lia.
    + intros t2 h' [Ht2 Hh]. split; [| done]. rewrite !announced_app. lia.
  - intros t1 h' [Ht1 Hh]. by split.
Qed.

Lemma executeCommand_step (a : list string) (bg : Z) (inF outF : option string)
    (st : ShellState) :
  wpM (executeCommand a bg inF outF) st (step_post st).
Proof.
  unfold executeCommand, child_branch, parent_branch, redirect_input,
    redirect_output, execvp, bg_append.
  wp_auto.
  all: step_leaf.
Qed.

Lemma quiet_then_step {A B} (m : M A) (f : A → M B) (st : ShellState) :
  wpM m st (quiet_frame st) →
  (∀ a, wpM (f a) st (step_post st)) →
  wpM (m ≫= f) st (step_post st).
Proof.
  intros Hm Hf. eapply wpM_seq; [apply Hm | |].
  - intros t1 a st1 [Ht1 ->]. eapply wp_mono; [| apply Hf].
    intros t2 o. unfold step_post.
    by rewrite announced_app, Ht1, Z.add_0_l.
  - intros t1 h [Ht1 ->]. unfold step_post. rewrite Ht1.
    split; [done |]. split; [lia | done].
Qed.

Lemma quiet_is_step {A} (m : M A) (st : ShellState) :
  wpM m st (quiet_frame st) → wpM m st (step_post st).
Proof.
  apply wp_mono. intros t o [Ht Ho]. unfold step_post. rewrite Ht.
  split; [done |]. split; [lia |].
  destruct o as [[a st'] | h].
  - subst st'. repeat split; try done; lia.
  - by subst h.
Qed.

Lemma builtin_exit_step (st : ShellState) : wpM builtin_exit st (step_post st).
Proof.
  unfold builtin_exit. wp_simpl.
  apply (quiet_then_step (kill_from _ 0) (λ _, stop (HExit 0))).
  - apply kill_from_quiet.
  - intros ?. wp_simpl. step_leaf.
Qed.

Lemma route_step (cmd : Command) (st : ShellState) :
  wpM (route cmd) st (step_post st).
Proof.
  unfold route. destruct (args cmd) as [| arg0 rest] eqn:Hargs.
  { wp_simpl. step_leaf. }
  destruct (String.eqb arg0 "exit"); [apply builtin_exit_step |].
  destruct (String.eqb arg0 "cd").
  { unfold builtin_cd. wp_auto. all: step_leaf. }
  destruct (String.eqb arg0 "status").
  { unfold builtin_status. wp_auto. all: step_leaf. }
  apply executeCommand_step.
Qed.

Lemma loop_body_step (st : ShellState) : wpM loop_body st (step_post st).
Proof.
  unfold loop_body.
  apply quiet_then_step; [apply checkBackgroundProcesses_quiet |]. intros ?.
  apply quiet_then_step; [unfold prompt; wp_auto; by split |]. intros ?.
  apply quiet_then_step; [wp_simpl; intros line; by split |]. intros [input |].
  - destruct (skipped_line input); [wp_simpl; step_leaf |].
    destruct (MAX_ARGS <=? _); [wp_simpl; step_leaf |].
    apply route_step.
  - wp_auto. step_leaf.
Qed.

Lemma handle_SIGTSTP_table (st : ShellState) :
  wpM (handle_SIGTSTP SIGTSTP) st
    (λ t o, announced t = 0 ∧
            ∃ st', o = Returned ((), st') ∧
                   foregroundOnly st' = (if foregroundOnly st =? 0 then 1 else 0) ∧
                   lastExitStatus st' = lastExitStatus st ∧
                   bgProcesses st' = bgProcesses st ∧
                   bgCount st' = bgCount st).
Proof.
  unfold handle_SIGTSTP. wp_simpl.
  destruct (foregroundOnly st =? 0); wp_simpl; intros ?; (split; [done |]);
    eexists; (split; [reflexivity |]); done.
Qed.

Lemma main_loop_foreground_only (n : nat) (st : ShellState) :
  foregroundOnly st ≠ 0 →
  wpM (main_loop n) st
    (λ t o, announced t = 0 ∧
            ∀ st', o = Returned ((), st') →
                   foregroundOnly st' = foregroundOnly st ∧
                   bgProcesses st' = bgProcesses st ∧
                   bgCount st' = bgCount st).
Proof.
  revert st. induction n as [| n IH]; intros st Hfo.
  { wp_simpl. split; [done |]. by intros st' [= <-]. }
  cbn [main_loop]. eapply wpM_seq; [apply loop_body_step | |].
  - intros t1 [] st1 (Hq & _ & Hfo1 & _ & Hcnt & Htbl & _).
    specialize (Hq Hfo). rewrite Hq, Z.add_0_r in Hcnt. specialize (Htbl Hq).
    eapply wp_mono; [| apply IH; congruence].
    intros t2 o [Ht2 Hst]. rewrite announced_app, Hq, Ht2. split; [done |].
    intros st' Ho. destruct (Hst st' Ho) as (? & ? & ?). repeat split; congruence.
  - intros t1 h (Hq & _). split; [by apply Hq | done].
Qed.

Lemma executeCommand_foreground_wait (a : list string) (bg : Z)
    (inF outF : option string) (st : ShellState) (pid : Z) :
  negb (bg =? 0) && (foregroundOnly st =? 0) = false →
  wpM (executeCommand a bg inF outF) st
    (λ t o,
       head t = Some (Fork, RInt pid) → pid ≠ -1 → pid ≠ 0 →
       ∃ ret status more,
         t = (Fork, RInt pid) :: (Waitpid pid 0, RWait ret status) :: more ∧
         announced t = 0 ∧
         o = Returned ((), with_lastExitStatus
                             (if WIFEXITED status then WEXITSTATUS status
                              else WTERMSIG status) st)).
Proof.
  intros Hfg. unfold executeCommand. wp_simpl. intros pid'. cbn in pid'.
  destruct (pid' =? -1) eqn:E1; [| destruct (pid' =? 0) eqn:E0].
  - wp_auto. intros [= ->]. apply Z.eqb_eq in E1. lia.
  - apply wp_any. intros t o [= ->]. apply Z.eqb_eq in E0. lia.
  - unfold parent_branch. wp_simpl. rewrite Hfg.
    wp_simpl. intros [ret status]. destruct (WIFEXITED status) eqn:Hex; wp_simpl.
    + intros [= <-] _ _. exists ret, status, []. rewrite Hex. done.
    + intros r1 r2 [= <-] _ _. eexists ret, status, _. rewrite Hex.
      split; [reflexivity |]. done.
Qed.

(** C3: while the foreground-only flag is set, a dispatched external
    command is waited for with a blocking [waitpid] and its status is
    recorded, nothing is announced as a background job and the table is
    left alone, whatever [background] says; this holds for every later
    turn of the loop, which leaves the flag as it is; the flag is cleared
    by the SIGTSTP handler. *)
Theorem foreground_only_suppresses_background
    {W} (K : kernel W) (w : W) (st : ShellState) :
  foregroundOnly st ≠ 0 →
  (∀ a bg inF outF pid,
     let r := exec K (executeCommand a bg inF outF) st w in
     head (trace_of r) = Some (Fork, RInt pid) → pid ≠ -1 → pid ≠ 0 →
     ∃ ret status more,
       trace_of r = (Fork, RInt pid) :: (Waitpid pid 0, RWait ret status) :: more ∧
       announced (trace_of r) = 0 ∧
       outcome_of r =
         Returned ((), with_lastExitStatus
                         (if WIFEXITED status then WEXITSTATUS status
                          else WTERMSIG status) st)) ∧
  (∀ n,
     let r := exec K (main_loop n) st w in
     announced (trace_of r) = 0 ∧
     ∀ st', outcome_of r = Returned ((), st') →
            foregroundOnly st' = foregroundOnly st ∧
            bgProcesses st' = bgProcesses st ∧
            bgCount st' = bgCount st) ∧
  outcome_of (exec K (handle_SIGTSTP SIGTSTP) st w) =
    Returned ((), with_foregroundOnly 0 st).
Proof.
  intros Hfo. split; [| split].
  - intros a bg inF outF pid. cbv zeta.
    assert (negb (bg =? 0) && (foregroundOnly st =? 0) = false) as Hb.
    { apply Z.eqb_neq in Hfo. by rewrite Hfo, andb_false_r. }
    exact (wpM_exec K (executeCommand a bg inF outF) st _ w
             (executeCommand_foreground_wait a bg inF outF st pid Hb)).
  - intros n. cbv zeta.
    apply (wpM_exec K (main_loop n) st _ w (main_loop_foreground_only n st Hfo)).
  - apply (wpM_exec K (handle_SIGTSTP SIGTSTP) st
             (λ _ o, o = Returned ((), with_foregroundOnly 0 st))).
    unfold handle_SIGTSTP. wp_simpl.
    apply Z.eqb_neq in Hfo. rewrite Hfo. by wp_simpl.
Qed.

Lemma foreground_only_suppresses_background_witness :
  let st := with_foregroundOnly 1 initial_state in
  let K := fixed_kernel (parent_view 4242 256 ("sleep 5 &" +:+ LF)) in
  foregroundOnly st ≠ 0 ∧
  (∃ ret status more,
     trace_of (exec K (executeCommand ["sleep"; "5"] 1 None None) st ()) =
       (Fork, RInt 4242) :: (Waitpid 4242 0, RWait ret status) :: more ∧
     announced (trace_of (exec K (executeCommand ["sleep"; "5"] 1 None None) st ())) = 0 ∧
     outcome_of (exec K (executeCommand ["sleep"; "5"] 1 None None) st ()) =
       Returned ((), with_lastExitStatus
                       (if WIFEXITED status then WEXITSTATUS status
                        else WTERMSIG status) st)) ∧
  announced (trace_of (exec K (main_loop 3) st ())) = 0.
Proof.
  cbv zeta.
  assert (foregroundOnly (with_foregroundOnly 1 initial_state) ≠ 0) as Hfo
    by (cbn; lia).
  pose proof (foreground_only_suppresses_background
                (fixed_kernel (parent_view 4242 256 ("sleep 5 &" +:+ LF))) ()
                (with_foregroundOnly 1 initial_state) Hfo) as (H1 & H2 & _).
  cbv zeta in H1, H2.
  split; [exact Hfo |]. split.
  - apply (H1 ["sleep"; "5"] 1 None None 4242); [reflexivity | lia | lia].
  - apply (H2 3%nat).
Defined.

Lemma wf_table_initial : wf_table initial_state.
Proof. split; [cbn; unfold BG_CAPACITY; lia | reflexivity]. Qed.

Lemma session_table (ts : list tick) (st : ShellState) :
  wf_table st → wpM (session ts) st (session_post st).
Proof.
  revert st. induction ts as [| [|] ts IH]; intros st [Hcnt Hlen].
  - wp_simpl. cbn. split; [done |]. unfold announced. cbn. lia.
  - cbn [session]. eapply wpM_seq; [apply loop_body_step | |].
    + intros t1 [] st1 (_ & Hann & _ & Hlen1 & Hcnt1 & _ & Hroom).
      assert (wf_table st1) as Hwf1.
      { split; [| congruence].
        destruct (decide (announced t1 = 1)) as [H1 | H1]; [specialize (Hroom H1) |];
          lia. }
      eapply wp_mono; [| apply (IH st1 Hwf1)].
      intros t2 [[[] st2] | h]; unfold session_post; rewrite announced_app, Hcnt1.
      * intros [? ->]. split; [done | lia].
      * destruct h as [| | []]; lia.
    + intros t1 h (_ & Hann & Hh). unfold session_post.
      destruct h as [| | []]; lia.
  - cbn [session]. eapply wpM_seq; [apply handle_SIGTSTP_table | |].
    + intros t1 [] st1 (Ht1 & st' & [= <-] & _ & _ & Htbl & Hc).
      assert (wf_table st1) as Hwf1 by (split; congruence).
      eapply wp_mono; [| apply (IH st1 Hwf1)].
      intros t2 [[[] st2] | h]; unfold session_post; rewrite announced_app, Hc, Ht1.
      * intros [? ->]. split; [done | lia].
      * destruct h as [| | []]; lia.
    + intros t1 h (_ & st' & [=] & _).
Qed.

(** C9: the table is an array of 50 entries and stays one; over a session
    the count grows by exactly the number of background jobs announced and
    never shrinks; the append is inside the array exactly when the count is
    below 50; and a session stops on a store outside the array exactly
    when it tracks a job with the count already at 50, the 51st of a
    session that started with an empty table. *)
Theorem table_append_in_bounds_below_capacity
    {W} (K : kernel W) (w : W) (st : ShellState) :
  wf_table st →
  (∀ ts,
     let r := exec K (session ts) st w in
     (∀ st', outcome_of r = Returned ((), st') →
             wf_table st' ∧
             bgCount st' = bgCount st + announced (trace_of r) ∧
             bgCount st ≤ bgCount st') ∧
     (outcome_of r = Halted (HUndef BgWriteOutOfBounds) ↔
      bgCount st + announced (trace_of r) = BG_CAPACITY + 1) ∧
     bgCount st + announced (trace_of r) ≤ BG_CAPACITY + 1) ∧
  (∀ pid,
     outcome_of (exec K (bg_append pid) st w) =
       if bgCount st <? BG_CAPACITY then
         Returned ((), with_bgProcesses
                         (<[Z.to_nat (bgCount st) := pid]> (bgProcesses st))
                         (with_bgCount (bgCount st + 1) st))
       else Halted (HUndef BgWriteOutOfBounds)).
Proof.
  intros Hwf. split.
  - intros ts. cbv zeta.
    pose proof (wpM_exec K (session ts) st _ w (session_table ts st Hwf)) as H.
    pose proof (announced_nonneg (trace_of (exec K (session ts) st w))) as Hnn.
    destruct Hwf as [Hcnt Hlen].
    destruct (outcome_of (exec K (session ts) st w)) as [[[] st1] | h];
      unfold session_post in H.
    + destruct H as [Hwf1 Hc1]. split; [| split].
      * intros st' [= <-]. split; [done |]. split; [done | lia].
      * destruct Hwf1 as [Hb _]. split; [done | lia].
      * destruct Hwf1 as [Hb _]. lia.
    + split; [done |].
      destruct h as [| | []]; (split; [split; [try done; intros; lia | try done; lia] | lia]).
  - intros pid. destruct Hwf as [Hcnt Hlen].
    apply (wpM_exec K (bg_append pid) st
             (λ _ o, o = if bgCount st <? BG_CAPACITY then _ else _)).
    unfold bg_append. wp_simpl.
    destruct (Z.leb_spec 0 (bgCount st)); [| lia].
    destruct (bgCount st <? BG_CAPACITY); by wp_simpl.
Qed.

Lemma table_append_in_bounds_below_capacity_witness :
  let K := fixed_kernel (parent_view 4242 0 ("sleep 5 &" +:+ LF)) in
  wf_table initial_state ∧
  outcome_of (exec K (session (replicate 51 Turn)) initial_state ()) =
    Halted (HUndef BgWriteOutOfBounds) ∧
  (∀ st', outcome_of (exec K (session (replicate 50 Turn)) initial_state ()) =
            Returned ((), st') → bgCount st' = 50).
Proof.
  cbv zeta.
  pose proof (table_append_in_bounds_below_capacity
                (fixed_kernel (parent_view 4242 0 ("sleep 5 &" +:+ LF))) ()
                initial_state wf_table_initial) as [H _].
  split; [exact wf_table_initial |]. split.
  - apply (H (replicate 51 Turn)). vm_compute. reflexivity.
  - intros st' Hst'. destruct (H (replicate 50 Turn)) as (H50 & _).
    destruct (H50 st' Hst') as (_ & -> & _). vm_compute. reflexivity.
Defined.

(** ** The built-ins *)

Lemma kill_from_calls (n : nat) (i : Z) (st : ShellState) :
  0 ≤ i → i + Z.of_nat n ≤ BG_CAPACITY →
  length (bgProcesses st) = Z.to_nat BG_CAPACITY →
  wpM (kill_from n i) st
    (λ t o, calls t = (λ h, Kill h SIGTERM) <$>
                      take n (drop (Z.to_nat i) (bgProcesses st)) ∧
            o = Returned ((), st)).
Proof.
  intros Hi Hn Hlen. revert i Hi Hn.
  induction n as [| n IH]; intros i Hi Hn; [by wp_simpl |].
  cbn [kill_from]. unfold bg_read. wp_simpl.
  destruct (Z.leb_spec 0 i); [| lia].
  destruct (Z.ltb_spec i BG_CAPACITY); [| lia]. cbn [andb].
  destruct (bgProcesses st !! Z.to_nat i) as [h |] eqn:Hh.
  2: { apply lookup_ge_None in Hh. lia. }
  wp_simpl. intros r.
  eapply wp_mono; [| apply (IH (i + 1)); lia].
  intros t o [Ht ->]. split; [| done].
  unfold calls in *. cbn. rewrite Ht.
  rewrite (drop_S _ _ _ Hh). cbn.
  by replace (Z.to_nat (i + 1)) with (S (Z.to_nat i)) by lia.
Qed.

Lemma route_exit_origin (cmd : Command) (st : ShellState) :
  wpM (route cmd) st
    (λ t o, ∀ code, o = Halted (HExit code) →
       (code = 0 ∧ head (args cmd) = Some "exit") ∨
       (Fork, RInt (-1)) ∈ t ∨ (Fork, RInt 0) ∈ t).
Proof.
  unfold route. destruct (args cmd) as [| arg0 rest] eqn:Hargs.
  { by wp_simpl. }
  destruct (String.eqb_spec arg0 "exit") as [-> | _].
  { unfold builtin_exit. wp_simpl.
    eapply wpM_seq; [apply kill_from_quiet | |].
    - intros t1 [] st1 _. wp_simpl. intros code [= <-]. by left.
    - by intros t1 h [_ ->]. }
  destruct (String.eqb arg0 "cd").
  { unfold builtin_cd. wp_auto; done. }
  destruct (String.eqb arg0 "status").
  { unfold builtin_status. wp_auto; done. }
  unfold executeCommand, child_branch, parent_branch, redirect_input,
    redirect_output, execvp, bg_append.
  wp_simpl. intros pid. cbn in pid.
  destruct (Z.eqb_spec pid (-1)) as [-> | Hne1].
  { eapply wp_any. intros t o code _. right. left. apply list_elem_of_here. }
  destruct (Z.eqb_spec pid 0) as [-> | Hne0].
  { eapply wp_any. intros t o code _. right. right. apply list_elem_of_here. }
  wp_auto; done.
Qed.

Lemma loop_body_exit_origin (st : ShellState) : wpM loop_body st exit_origin.
Proof.
  unfold loop_body.
  eapply wpM_seq; [apply checkBackgroundProcesses_quiet | | by intros t h [_ ->]].
  intros t1 [] st1 _.
  eapply wpM_seq; [apply prompt_quiet | | by intros t h [_ ->]].
  intros t2 [] st2 _. wp_simpl. intros [input |].
  - destruct (skipped_line input); [by wp_simpl |].
    destruct (MAX_ARGS <=? _); [by wp_simpl |].
    eapply wp_mono; [| apply route_exit_origin].
    intros t3 o Ho code Hcode. destruct (Ho code Hcode) as [[-> Hex] | [Hf | Hf]].
    + left. split; [done |]. exists input. split; [| done].
      apply elem_of_app. right. apply elem_of_app. right. apply list_elem_of_here.
    + right. left. apply elem_of_app. right. apply elem_of_app. right.
      by apply list_elem_of_further.
    + right. right. apply elem_of_app. right. apply elem_of_app. right.
      by apply list_elem_of_further.
  - wp_simpl. by intros r.
Qed.

(** C5: the [exit] built-in sends SIGTERM to each of the [bgCount] entries
    of the table, in order, issues no other call (it waits for nothing),
    and exits with status 0; a line whose first argument is [exit] is
    routed to it; and a turn of the loop exits only through it, through a
    failed [fork], or in a forked child. *)
Theorem exit_builtin_terminates_all
    {W} (K : kernel W) (w : W) (st : ShellState) :
  wf_table st →
  (let r := exec K builtin_exit st w in
   calls (trace_of r) =
     (λ h, Kill h SIGTERM) <$> take (Z.to_nat (bgCount st)) (bgProcesses st) ∧
   outcome_of r = Halted (HExit 0)) ∧
  (∀ cmd, head (args cmd) = Some "exit" → route cmd = builtin_exit) ∧
  exit_origin (trace_of (exec K loop_body st w))
              (outcome_of (exec K loop_body st w)).
Proof.
  intros [Hcnt Hlen]. split; [| split].
  - cbv zeta.
    apply (wpM_exec K builtin_exit st
             (λ t o, calls t = (λ h, Kill h SIGTERM) <$>
                               take (Z.to_nat (bgCount st)) (bgProcesses st) ∧
                     o = Halted (HExit 0))).
    unfold builtin_exit. wp_simpl.
    eapply wpM_seq; [apply (kill_from_calls _ 0); [lia | lia | done] | |].
    + intros t1 [] st1 [Ht1 _]. wp_simpl. by rewrite app_nil_r.
    + by intros t1 h [_ ?].
  - intros cmd Hhead. unfold route.
    destruct (args cmd) as [| arg0 rest]; [done |].
    by injection Hhead as ->.
  - apply wpM_exec, loop_body_exit_origin.
Qed.

(** C4 as the code has it: a foreground wait stores the exit code of a
    child that exited, or the number of the signal that killed it, in the
    one integer [lastExitStatus]; the [status] built-in prints that
    integer after the words "exit value" in both cases and changes
    nothing; before any foreground command the integer is 0. *)
Theorem last_status_is_one_untagged_integer
    {W} (K : kernel W) (w : W) (st : ShellState) :
  (∀ a bg inF outF pid,
     let r := exec K (executeCommand a bg inF outF) st w in
     bg = 0 ∨ foregroundOnly st ≠ 0 →
     head (trace_of r) = Some (Fork, RInt pid) → pid ≠ -1 → pid ≠ 0 →
     ∃ ret status more,
       trace_of r = (Fork, RInt pid) :: (Waitpid pid 0, RWait ret status) :: more ∧
       outcome_of r =
         Returned ((), with_lastExitStatus
                         (if WIFEXITED status then WEXITSTATUS status
                          else WTERMSIG status) st)) ∧
  (let r := exec K builtin_status st w in
   calls (trace_of r) =
     [Printf ("exit value %d" +:+ LF) [lastExitStatus st]; Fflush] ∧
   outcome_of r = Returned ((), st)) ∧
  (∀ cmd, head (args cmd) = Some "status" → route cmd = builtin_status) ∧
  lastExitStatus initial_state = 0.
Proof.
  split; [| split; [| split]].
  - intros a bg inF outF pid r Hfg Hhead Hne1 Hne0. subst r.
    assert (negb (bg =? 0) && (foregroundOnly st =? 0) = false) as Hb.
    { destruct Hfg as [-> | Hfo]; [done |].
      apply Z.eqb_neq in Hfo. by rewrite Hfo, andb_false_r. }
    destruct (wpM_exec K (executeCommand a bg inF outF) st _ w
                (executeCommand_foreground_wait a bg inF outF st pid Hb)
                Hhead Hne1 Hne0) as (ret & status & more & Ht & _ & Ho).
    by exists ret, status, more.
  - cbv zeta.
    apply (wpM_exec K builtin_status st
             (λ t o, calls t = [Printf ("exit value %d" +:+ LF) [lastExitStatus st];
                                Fflush] ∧
                     o = Returned ((), st))).
    unfold builtin_status. by wp_auto.
  - intros cmd Hhead. unfold route.
    destruct (args cmd) as [| arg0 rest]; [done |].
    by injection Hhead as ->.
  - reflexivity.
Qed.

Lemma last_status_is_one_untagged_integer_witness :
  let K := fixed_kernel (parent_view 4242 256 ("false" +:+ LF)) in
  ∃ ret status more,
    trace_of (exec K (executeCommand ["false"] 0 None None) initial_state ()) =
      (Fork, RInt 4242) :: (Waitpid 4242 0, RWait ret status) :: more ∧
    outcome_of (exec K (executeCommand ["false"] 0 None None) initial_state ()) =
      Returned ((), with_lastExitStatus
                      (if WIFEXITED status then WEXITSTATUS status
                       else WTERMSIG status) initial_state).
Proof.
  cbv zeta.
  pose proof (last_status_is_one_untagged_integer
                (fixed_kernel (parent_view 4242 256 ("false" +:+ LF))) ()
                initial_state) as (H1 & _).
  cbv zeta in H1.
  apply (H1 ["false"] 0 None None 4242);
    [left; reflexivity | reflexivity | lia | lia].
Defined.

(** A child that exits with code 2 and a child killed by signal 2 leave
    the same globals behind, and [status] prints "exit value 2" for
    both: the stored value carries no tag. *)
Lemma status_report_loses_the_tag :
  WIFEXITED 512 = true ∧ WEXITSTATUS 512 = 2 ∧
  WIFEXITED 2 = false ∧ WTERMSIG 2 = 2 ∧
  outcome_of (exec (fixed_kernel (parent_view 4242 512 ("prog" +:+ LF)))
                (executeCommand ["prog"] 0 None None) initial_state ()) =
    Returned ((), with_lastExitStatus 2 initial_state) ∧
  outcome_of (exec (fixed_kernel (parent_view 4242 2 ("prog" +:+ LF)))
                (executeCommand ["prog"] 0 None None) initial_state ()) =
    Returned ((), with_lastExitStatus 2 initial_state) ∧
  calls (trace_of (exec (fixed_kernel (parent_view 4242 2 ("prog" +:+ LF))) builtin_status
                     (with_lastExitStatus 2 initial_state) ())) =
    [Printf ("exit value %d" +:+ LF) [2]; Fflush].
Proof. repeat split. Qed.

Lemma exit_builtin_terminates_all_witness :
  let st := {| foregroundOnly := 0; lastExitStatus := 0;
               bgProcesses := <[1%nat := 101]> (<[0%nat := 100]> (bgProcesses initial_state));
               bgCount := 2 |} in
  let K := fixed_kernel (parent_view 4242 0 ("exit" +:+ LF)) in
  wf_table st ∧
  calls (trace_of (exec K builtin_exit st ())) =
    [Kill 100 SIGTERM; Kill 101 SIGTERM] ∧
  outcome_of (exec K builtin_exit st ()) = Halted (HExit 0).
Proof.
  cbv zeta.
  assert (wf_table {| foregroundOnly := 0; lastExitStatus := 0;
                      bgProcesses := <[1%nat := 101]> (<[0%nat := 100]> (bgProcesses initial_state));
                      bgCount := 2 |}) as Hwf.
  { split; [cbn; unfold BG_CAPACITY; lia | reflexivity]. }
  split; [exact Hwf |].
  apply (exit_builtin_terminates_all
           (fixed_kernel (parent_view 4242 0 ("exit" +:+ LF))) () _ Hwf).
Defined.

(** The frame of [cd]: whatever [chdir] answers, the globals are as
    before and the built-in returns to the loop. *)
Lemma builtin_cd_frame {W} (K : kernel W) (w : W) (st : ShellState) (cmd : Command) :
  outcome_of (exec K (builtin_cd cmd) st w) = Returned ((), st).
Proof.
  apply (wpM_exec K (builtin_cd cmd) st (λ _ o, o = Returned ((), st))).
  unfold builtin_cd. by wp_auto.
Qed.

(** C8 at [cd] without an argument, HOME naming a missing directory:
    [chdir] fails and nothing is reported, while [cd /nonexistent] does
    report; the globals are unchanged and the loop goes on in both. *)
Theorem cd_home_failure_is_silent :
  let silent := exec (fixed_kernel (home_missing ("cd" +:+ LF)))
                  loop_body initial_state () in
  let loud := exec (fixed_kernel (home_missing ("cd /nonexistent" +:+ LF)))
                loop_body initial_state () in
  calls (trace_of silent) =
    [Printf ": " []; Fflush; Fgets MAX_INPUT; Getenv "HOME";
     Chdir (Some "/nonexistent")] ∧
  (Chdir (Some "/nonexistent"), RInt (-1)) ∈ trace_of silent ∧
  outcome_of silent = Returned ((), initial_state) ∧
  calls (trace_of loud) =
    [Printf ": " []; Fflush; Fgets MAX_INPUT;
     Chdir (Some "/nonexistent"); Perror "cd failed"] ∧
  outcome_of loud = Returned ((), initial_state).
Proof.
  cbv zeta. split; [reflexivity |]. split; [| by repeat split].
  vm_compute. repeat constructor.
Qed.

(** ** Signal dispositions of the child *)

(** In a child without redirections SIGTSTP is set to ignored, and SIGINT
    is set to default exactly when [background] is 0. *)
Lemma child_signal_dispositions {W} (K : kernel W) (w : W) (st : ShellState)
    (a : list string) (bg : Z) :
  let r := exec K (executeCommand a bg None None) st w in
  head (trace_of r) = Some (Fork, RInt 0) →
  Sigaction SIGTSTP SIG_IGN ∈ calls (trace_of r) ∧
  (Sigaction SIGINT SIG_DFL ∈ calls (trace_of r) ↔ bg = 0).
Proof.
  cbv zeta.
  apply (wpM_exec K (executeCommand a bg None None) st
           (λ t _, head t = Some (Fork, RInt 0) →
                   Sigaction SIGTSTP SIG_IGN ∈ calls t ∧
                   (Sigaction SIGINT SIG_DFL ∈ calls t ↔ bg = 0))).
  unfold executeCommand, child_branch, parent_branch, redirect_input,
    redirect_output, execvp, bg_append.
  wp_auto.
  all: wp_leaf.
  all: try (repeat constructor; done).
Qed.

(** C1 at foreground-only mode and a command typed with a trailing [&]:
    the shell waits for the child with a blocking [waitpid], announces no
    background job, and yet the child has not set SIGINT back to
    default. *)
Theorem forced_foreground_child_keeps_sigint_ignored :
  let st := with_foregroundOnly 1 initial_state in
  let cmd := parse_line ("sleep 100 &" +:+ LF) in
  let child := exec (fixed_kernel (child_view 3 None))
                 (executeCommand (args cmd) (background cmd)
                    (inputFile cmd) (outputFile cmd)) st () in
  let shell := exec (fixed_kernel (parent_view 4242 0 ("sleep 100 &" +:+ LF)))
                 (executeCommand (args cmd) (background cmd)
                    (inputFile cmd) (outputFile cmd)) st () in
  background cmd = 1 ∧
  calls (trace_of shell) =
    [Fork; Waitpid 4242 0] ∧
  calls (trace_of child) =
    [Fork; Sigaction SIGTSTP SIG_IGN; Execvp (Some "sleep") ["sleep"; "100"]] ∧
  Sigaction SIGINT SIG_DFL ∉ calls (trace_of child).
Proof.
  cbv zeta. repeat split. vm_compute. intros H.
  repeat (apply elem_of_cons in H as [H | H]; [discriminate H |]).
  by apply elem_of_nil in H.
Qed.

(** ** The tokenising loop *)

Lemma ordinary_spec (w : string) :
  ordinary w = true ↔ w ≠ "<" ∧ w ≠ ">" ∧ w ≠ "&".
Proof.
  unfold ordinary.
  destruct (String.eqb_spec w "<"), (String.eqb_spec w ">"),
    (String.eqb_spec w "&"); cbn; intuition congruence.
Qed.

Lemma scan_chunk (c : chunk) (rest : list string) (cmd : Command) :
  chunk_ok c →
  scan (chunk_tokens c ++ rest) cmd = scan rest (chunk_effect c cmd).
Proof.
  destruct c as [w | path | path | swallowed]; cbn; try done.
  intros (Hlt & Hgt & Hamp)%ordinary_spec.
  apply String.eqb_neq in Hlt, Hgt, Hamp. by rewrite Hlt, Hgt, Hamp.
Qed.

Lemma scan_end (e : line_end) (cmd : Command) :
  scan (end_tokens e) cmd = end_effect e cmd.
Proof. by destruct e. Qed.

Lemma scan_chunks (cs : list chunk) (rest : list string) (cmd : Command) :
  Forall chunk_ok cs →
  scan ((cs ≫= chunk_tokens) ++ rest) cmd =
  scan rest (foldl (flip chunk_effect) cmd cs).
Proof.
  intros Hok. revert cmd. induction Hok as [| c cs Hc _ IH]; intros cmd; [done |].
  cbn. rewrite <- app_assoc, scan_chunk by done. apply IH.
Qed.

Lemma chunks_args (cs : list chunk) (cmd : Command) :
  args (foldl (flip chunk_effect) cmd cs) = args cmd ++ (cs ≫= chunk_args).
Proof.
  revert cmd. induction cs as [| c cs IH]; intros cmd; cbn.
  - by rewrite app_nil_r.
  - rewrite IH. destruct c; cbn; by rewrite <- ?app_assoc.
Qed.

Lemma chunks_background (cs : list chunk) (cmd : Command) :
  background (foldl (flip chunk_effect) cmd cs) = background cmd.
Proof.
  revert cmd. induction cs as [| c cs IH]; intros cmd; cbn; [done |].
  rewrite IH. by destruct c.
Qed.

(** Every line is cut into chunks and an end. *)
Lemma chunked_exists (toks : list string) : ∃ cs e, chunked cs e toks.
Proof.
  cut ((∃ cs e, chunked cs e toks) ∧ ∀ t, ∃ cs e, chunked cs e (t :: toks)).
  { by intros [H _]. }
  induction toks as [| t' toks [IH0 IH1]].
  - split; [by exists [], EndPlain |].
    intros t.
    destruct (String.eqb_spec t "<") as [-> | Hlt]; [by exists [], EndIn |].
    destruct (String.eqb_spec t ">") as [-> | Hgt]; [by exists [], EndOut |].
    destruct (String.eqb_spec t "&") as [-> | Hamp]; [by exists [], EndAmp |].
    exists [CWord t], EndPlain. split; [| done].
    constructor; [by apply ordinary_spec | done].
  - split; [apply IH1 |]. intros t.
    destruct IH0 as (cs0 & e0 & Hok0 & ->).
    destruct (String.eqb_spec t "<") as [-> | Hlt].
    { exists (CIn t' :: cs0), e0. split; [by constructor | done]. }
    destruct (String.eqb_spec t ">") as [-> | Hgt].
    { exists (COut t' :: cs0), e0. split; [by constructor | done]. }
    destruct (String.eqb_spec t "&") as [-> | Hamp].
    { exists (CAmp t' :: cs0), e0. split; [by constructor | done]. }
    destruct (IH1 t') as (cs1 & e1 & Hok1 & Heq1).
    exists (CWord t :: cs1), e1. split.
    + constructor; [by apply ordinary_spec | done].
    + cbn. by rewrite Heq1.
Qed.

Lemma scan_chunked (cs : list chunk) (e : line_end) (toks : list string)
    (cmd : Command) :
  chunked cs e toks →
  scan toks cmd = end_effect e (foldl (flip chunk_effect) cmd cs).
Proof. intros [Hok ->]. by rewrite scan_chunks, scan_end. Qed.

Lemma scan_args (toks : list string) (cmd : Command) :
  args (scan toks cmd) = args cmd ++ args (scan toks no_command).
Proof.
  destruct (chunked_exists toks) as (cs & e & Hch).
  rewrite !(scan_chunked cs e toks) by done.
  destruct e; cbn; by rewrite !chunks_args.
Qed.

(** C10 as the code has it: the flag is set exactly when the line is a
    sequence of chunks followed by one last [&], that is, when the loop
    arrives at an [&] with nothing after it; and an [&] the loop arrives
    at that has a token after it is kept as an argument while that token
    is dropped. *)
Theorem background_flag_and_swallowed_token (toks : list string) :
  (background (scan toks no_command) = 1 ↔ ∃ cs, chunked cs EndAmp toks) ∧
  (∀ cs t rest,
     Forall chunk_ok cs →
     toks = (cs ≫= chunk_tokens) ++ "&" :: t :: rest →
     args (scan toks no_command) =
       (cs ≫= chunk_args) ++ "&" :: args (scan rest no_command)).
Proof.
  split.
  - split.
    + intros Hbg. destruct (chunked_exists toks) as (cs & e & Hch).
      rewrite (scan_chunked cs e toks) in Hbg by done.
      destruct e; cbn in Hbg; rewrite ?chunks_background in Hbg; cbn in Hbg;
        try discriminate Hbg.
      by exists cs.
    + intros (cs & Hch). by rewrite (scan_chunked cs EndAmp toks).
  - intros cs t rest Hok ->.
    rewrite (scan_chunks cs _ no_command Hok). cbn.
    rewrite scan_args. cbn. by rewrite chunks_args, <- app_assoc.
Qed.

(** ** Reaping *)

Lemma reap_from_polls (n : nat) (i : Z) (st : ShellState) :
  0 ≤ i → i + Z.of_nat n ≤ BG_CAPACITY →
  length (bgProcesses st) = Z.to_nat BG_CAPACITY →
  wpM (reap_from n i) st
    (λ t o, o = Returned ((), st) ∧
            reports t = reaped t ∧
            polls t = (λ h, Waitpid h WNOHANG) <$>
                      take n (drop (Z.to_nat i) (bgProcesses st))).
Proof.
  intros Hi Hn Hlen. revert i Hi Hn.
  induction n as [| n IH]; intros i Hi Hn; [by wp_simpl |].
  cbn [reap_from]. unfold bg_read, report_status. wp_simpl.
  destruct (Z.leb_spec 0 i); [| lia].
  destruct (Z.ltb_spec i BG_CAPACITY); [| lia]. cbn [andb].
  destruct (bgProcesses st !! Z.to_nat i) as [h |] eqn:Hh.
  2: { apply lookup_ge_None in Hh. lia. }
  rewrite (drop_S _ _ _ Hh).
  replace (S (Z.to_nat i)) with (Z.to_nat (i + 1)) by lia.
  wp_simpl. intros [pid status].
  destruct (0 <? pid) eqn:Hpid; [destruct (WIFEXITED status) |]; wp_simpl; intros.
  all: (eapply wp_mono; [| apply (IH (i + 1)); lia]).
  all: intros t o (-> & Hrep & Hpolls); split; [done |].
  all: unfold reports, reaped, polls, calls in *; cbn; rewrite ?Hpid, Hrep, Hpolls.
  all: done.
Qed.

Lemma reap_from_posix (n : nat) (i : Z) (st : ShellState) (w : world) :
  0 ≤ i → i + Z.of_nat n ≤ BG_CAPACITY →
  length (bgProcesses st) = Z.to_nat BG_CAPACITY →
  let r := exec posix (reap_from n i) st w in
  let hs := take n (drop (Z.to_nat i) (bgProcesses st)) in
  reports (trace_of r) = (poll hs (children w)).1 ∧
  children (world_of r) = (poll hs (children w)).2.
Proof.
  intros Hi Hn Hlen. cbv zeta. revert i w Hi Hn.
  induction n as [| n IH]; intros i w Hi Hn; [done |].
  destruct (bgProcesses st !! Z.to_nat i) as [h |] eqn:Hh.
  2: { apply lookup_ge_None in Hh. lia. }
  rewrite (drop_S _ _ _ Hh).
  replace (S (Z.to_nat i)) with (Z.to_nat (i + 1)) by lia.
  cbn [take poll].
  unfold exec, trace_of, world_of in *. cbn [reap_from].
  unfold bg_read, report_status, mbind, M_bind, bindM, gets, sys, ret, stop.
  cbn [pbind].
  destruct (Z.leb_spec 0 i); [| lia].
  destruct (Z.ltb_spec i BG_CAPACITY); [| lia]. cbn [andb].
  rewrite Hh. cbn [pbind run posix answer posix_answer].
  unfold posix_waitpid.
  destruct (0 <? h) eqn:Hpos;
    [destruct (children w !! h) as [[fate | status] |] eqn:Hch |].
  all: try change (Z.land WNOHANG WNOHANG =? 0) with false.
  all: cbn [Z.ltb Z.compare reify]; try rewrite Hpos.
  all: rewrite run_pbind.
  all: try destruct (WIFEXITED status).
  all: cbn [run pbind posix answer posix_answer reify].
  all: use_reap_IH IH.
  all: cbn [fst snd children] in *.
  all: destruct IH as [IH1 IH2].
  all: try (destruct (poll _ _) as [done ch']; cbn [fst snd] in *; subst).
  all: match goal with o : outcome _ |- _ => destruct o as [[[] ?] | ?] end.
  all: cbn [fst snd app].
  all: unfold reports in *; cbn; try rewrite IH1; done.
Qed.

Lemma poll_absent (hs : list Z) (ch : gmap Z child) (p : Z) :
  ch !! p = None → (p ∉ fst (poll hs ch)) ∧ snd (poll hs ch) !! p = None.
Proof.
  revert ch. induction hs as [| h hs IH]; intros ch Hp; cbn.
  { split; [apply not_elem_of_nil | done]. }
  destruct (0 <? h); [| by apply IH].
  destruct (ch !! h) as [[fate | status] |] eqn:Hh; try by apply IH.
  assert (h ≠ p) as Hne by congruence.
  destruct (IH (delete h ch)) as [Hnot Hgone].
  { by rewrite lookup_delete_ne. }
  destruct (poll hs (delete h ch)) as [done ch']. cbn in *.
  split; [| done]. apply not_elem_of_cons. by split.
Qed.

Lemma poll_zombie (hs : list Z) (ch : gmap Z child) (p s : Z) :
  ch !! p = Some (Zombie s) → 0 < p → p ∈ hs →
  count_occ Z.eq_dec (fst (poll hs ch)) p = 1%nat ∧
  snd (poll hs ch) !! p = None.
Proof.
  intros Hp Hpos. revert ch Hp.
  induction hs as [| h hs IH]; intros ch Hp Hin; [by apply elem_of_nil in Hin |].
  cbn. destruct (decide (h = p)) as [-> | Hne].
  - destruct (Z.ltb_spec 0 p); [| lia]. rewrite Hp.
    destruct (poll_absent hs (delete p ch) p) as [Hnot Hgone].
    { apply lookup_delete_eq. }
    destruct (poll hs (delete p ch)) as [done ch']. cbn in *.
    split; [| done].
    destruct (Z.eq_dec p p); [| done].
    f_equal. apply count_occ_not_In. by rewrite <- list_elem_of_In.
  - apply elem_of_cons in Hin as [-> | Hin]; [done |].
    destruct (0 <? h); [| by apply IH].
    destruct (ch !! h) as [[fate | status] |] eqn:Hh; try by apply IH.
    destruct (IH (delete h ch)) as [Hone Hgone]; [by rewrite lookup_delete_ne | done |].
    destruct (poll hs (delete h ch)) as [done ch']. cbn in *.
    split; [| done]. by destruct (Z.eq_dec h p).
Qed.

Lemma checkBackgroundProcesses_posix (st : ShellState) (w : world) :
  wf_table st →
  let r := exec posix checkBackgroundProcesses st w in
  reports (trace_of r) = fst (poll (tracked st) (children w)) ∧
  children (world_of r) = snd (poll (tracked st) (children w)).
Proof.
  intros [Hcnt Hlen].
  apply (reap_from_posix (Z.to_nat (bgCount st)) 0 st w); [lia | lia | done].
Qed.

Lemma tracked_append (st : ShellState) (pid : Z) :
  wf_table st → bgCount st < BG_CAPACITY →
  tracked (with_bgProcesses (<[Z.to_nat (bgCount st) := pid]> (bgProcesses st))
             (with_bgCount (bgCount st + 1) st)) =
  tracked st ++ [pid].
Proof.
  intros [Hcnt Hlen] Hroom. unfold tracked. cbn.
  replace (Z.to_nat (bgCount st + 1)) with (S (Z.to_nat (bgCount st))) by lia.
  rewrite (take_S_r _ _ pid).
  - by rewrite take_insert_ge.
  - apply list_lookup_insert_eq. unfold BG_CAPACITY in *. lia.
Qed.

(** C2 as the code has it.  A reap cycle polls each tracked handle once,
    in order, with a non-blocking [waitpid], reports exactly the pids that
    [waitpid] handed out, and leaves the table and the count as they are:
    nothing is ever removed.  An append of a pid that is not in the table
    keeps the table free of duplicates.  Against the POSIX kernel a
    tracked child that has ended is reported exactly once by the cycle
    and is gone from the kernel afterwards, and a pid the kernel does not
    know is not reported, so a later cycle does not report it again. *)
Theorem reap_reports_once_and_removes_nothing (st : ShellState) :
  wf_table st →
  (∀ W (K : kernel W) (w : W),
     let r := exec K checkBackgroundProcesses st w in
     outcome_of r = Returned ((), st) ∧
     reports (trace_of r) = reaped (trace_of r) ∧
     polls (trace_of r) = (λ h, Waitpid h WNOHANG) <$> tracked st) ∧
  (∀ W (K : kernel W) (w : W) (pid : Z),
     bgCount st < BG_CAPACITY → NoDup (tracked st) → pid ∉ tracked st →
     ∃ st', outcome_of (exec K (bg_append pid) st w) = Returned ((), st') ∧
            tracked st' = tracked st ++ [pid] ∧
            NoDup (tracked st')) ∧
  (∀ (w : world) (p s : Z),
     p ∈ tracked st → 0 < p → children w !! p = Some (Zombie s) →
     let r := exec posix checkBackgroundProcesses st w in
     count_occ Z.eq_dec (reports (trace_of r)) p = 1%nat ∧
     children (world_of r) !! p = None ∧
     p ∉ reports (trace_of (exec posix checkBackgroundProcesses st (world_of r)))) ∧
  (∀ (w : world) (p : Z),
     children w !! p = None →
     let r := exec posix checkBackgroundProcesses st w in
     (p ∉ reports (trace_of r)) ∧ children (world_of r) !! p = None).
Proof.
  intros Hwf. split; [| split; [| split]].
  - intros W K w. cbv zeta. destruct Hwf as [Hcnt Hlen].
    apply (wpM_exec K checkBackgroundProcesses st
             (λ t o, o = Returned ((), st) ∧ reports t = reaped t ∧
                     polls t = (λ h, Waitpid h WNOHANG) <$> tracked st)).
    unfold checkBackgroundProcesses. wp_simpl.
    apply (reap_from_polls _ 0); [lia | lia | done].
  - intros W K w pid Hroom Hnd Hfresh.
    exists (with_bgProcesses (<[Z.to_nat (bgCount st) := pid]> (bgProcesses st))
              (with_bgCount (bgCount st + 1) st)).
    split; [| split].
    + apply (wpM_exec K (bg_append pid) st
               (λ _ o, o = Returned
                             ((), with_bgProcesses
                                    (<[Z.to_nat (bgCount st) := pid]> (bgProcesses st))
                                    (with_bgCount (bgCount st + 1) st)))).
      unfold bg_append. wp_simpl. destruct Hwf as [Hcnt Hlen].
      destruct (Z.leb_spec 0 (bgCount st)); [| lia].
      destruct (Z.ltb_spec (bgCount st) BG_CAPACITY); [| lia].
      wp_simpl. reflexivity.
    + by apply tracked_append.
    + rewrite tracked_append by done.
      apply NoDup_app. split; [done |]. split; [| apply NoDup_singleton].
      intros x Hx ->%list_elem_of_singleton. done.
  - intros w p s Hin Hpos Hz. cbv zeta.
    destruct (checkBackgroundProcesses_posix st w Hwf) as [Hrep Hch].
    destruct (poll_zombie (tracked st) (children w) p s Hz Hpos Hin) as [Hone Hgone].
    rewrite Hrep, Hch. split; [done |]. split; [done |].
    destruct (checkBackgroundProcesses_posix st
                (world_of (exec posix checkBackgroundProcesses st w)) Hwf) as [-> _].
    apply poll_absent. by rewrite Hch.
  - intros w p Hnone. cbv zeta.
    destruct (checkBackgroundProcesses_posix st w Hwf) as [-> ->].
    by apply poll_absent.
Qed.

Lemma wf_table_one_job : wf_table one_job.
Proof. split; [cbn; unfold BG_CAPACITY; lia | reflexivity]. Qed.

Lemma reap_reports_once_and_removes_nothing_witness :
  wf_table one_job ∧
  (4242 ∈ tracked one_job ∧ 0 < 4242 ∧ children job_ended !! 4242 = Some (Zombie 0)) ∧
  (count_occ Z.eq_dec
     (reports (trace_of (exec posix checkBackgroundProcesses one_job job_ended)))
     4242 = 1%nat ∧
   children (world_of (exec posix checkBackgroundProcesses one_job job_ended))
     !! 4242 = None ∧
   4242 ∉ reports
            (trace_of (exec posix checkBackgroundProcesses one_job
                         (world_of (exec posix checkBackgroundProcesses
                                      one_job job_ended))))) ∧
  (bgCount one_job < BG_CAPACITY ∧ NoDup (tracked one_job) ∧ 4243 ∉ tracked one_job) ∧
  (∃ st', outcome_of (exec posix (bg_append 4243) one_job job_ended) =
            Returned ((), st') ∧
          tracked st' = tracked one_job ++ [4243] ∧ NoDup (tracked st')).
Proof.
  pose proof (reap_reports_once_and_removes_nothing one_job wf_table_one_job)
    as (_ & Happend & Hposix & _).
  assert (4242 ∈ tracked one_job) as Hin by (vm_compute; constructor).
  assert (children job_ended !! 4242 = Some (Zombie 0)) as Hz by reflexivity.
  assert (NoDup (tracked one_job)) as Hnd.
  { vm_compute. apply NoDup_singleton. }
  assert (4243 ∉ tracked one_job) as Hfresh.
  { vm_compute. intros H. apply elem_of_cons in H as [H | H]; [discriminate H |].
    by apply elem_of_nil in H. }
  assert (bgCount one_job < BG_CAPACITY) as Hroom by (vm_compute; reflexivity).
  split; [exact wf_table_one_job |].
  split; [split; [exact Hin | split; [lia | exact Hz]] |].
  split; [exact (Hposix job_ended 4242 0 Hin ltac:(lia) Hz) |].
  split; [split; [exact Hroom | split; [exact Hnd | exact Hfresh]] |].
  exact (Happend world posix job_ended 4243 Hroom Hnd Hfresh).
Defined.

(** The cycle that reports pid 4242 as done leaves it in the table. *)
Lemma reported_handle_stays_in_table :
  reports (trace_of (exec posix checkBackgroundProcesses one_job job_ended)) = [4242] ∧
  outcome_of (exec posix checkBackgroundProcesses one_job job_ended) =
    Returned ((), one_job) ∧
  tracked one_job = [4242] ∧
  bgCount one_job = 1.
Proof. by vm_compute. Qed.

Lemma background_flag_and_swallowed_token_witness :
  background (scan ["ls"; "&"] no_command) = 1 ∧
  args (scan ["ls"; "-l"; "&"; "foo"; "bar"] no_command) = ["ls"; "-l"; "&"; "bar"].
Proof.
  split.
  - apply (background_flag_and_swallowed_token ["ls"; "&"]).
    exists [CWord "ls"]. split; [by repeat constructor | reflexivity].
  - apply (proj2 (background_flag_and_swallowed_token
                    ["ls"; "-l"; "&"; "foo"; "bar"])
             [CWord "ls"; CWord "-l"] "foo" ["bar"]);
      [by repeat constructor | reflexivity].
Defined.

(** A last token [&] that is the path of a redirection, or that the
    look-ahead of an earlier [&] has swallowed, does not set the flag; and
    an [&] that is the path of a redirection is not an argument, nor is
    the token after it dropped. *)
Lemma last_ampersand_need_not_set_the_flag :
  last (strtok_all ("cat < &" +:+ LF)) = Some "&" ∧
  background (parse_line ("cat < &" +:+ LF)) = 0 ∧
  last (strtok_all ("ls & &" +:+ LF)) = Some "&" ∧
  background (parse_line ("ls & &" +:+ LF)) = 0 ∧
  strtok_all ("cat < & foo" +:+ LF) = ["cat"; "<"; "&"; "foo"] ∧
  args (parse_line ("cat < & foo" +:+ LF)) = ["cat"; "foo"].
Proof. by vm_compute. Qed.

(** The scenario [sleep 5 &] followed by [exit], against the POSIX
    kernel: the job gets pid 100, is announced and entered into the table,
    and [exit] sends it SIGTERM before the shell exits with status 0. *)
Example scenario_background_job_then_exit :
  let w := {| children := ∅; next_pid := 100;
              stdin := ["sleep 5 &" +:+ LF; "exit" +:+ LF] |} in
  let r := exec posix (main 2) initial_state w in
  calls (trace_of r) =
    [Sigaction SIGTSTP (SIG_FUN "handle_SIGTSTP"); Sigaction SIGINT SIG_IGN;
     Printf ": " []; Fflush; Fgets MAX_INPUT;
     Fork; Printf ("background pid is %d" +:+ LF) [100]; Fflush;
     Waitpid 100 WNOHANG;
     Printf ": " []; Fflush; Fgets MAX_INPUT;
     Kill 100 SIGTERM] ∧
  outcome_of r = Halted (HExit 0).
Proof. by vm_compute. Qed.

(** The scenario [sleep 1 &], then two blank lines, against the POSIX
    kernel: the job gets pid 100; once it has ended, the next turn reports
    it, the turn after that reports nothing, and pid 100 is in the table
    all along. *)
Example scenario_background_job_reported_once :
  let w := {| children := ∅; next_pid := 100;
              stdin := ["sleep 1 &" +:+ LF; LF; LF] |} in
  let st1 := with_bgProcesses (<[0%nat := 100]> (bgProcesses initial_state))
               (with_bgCount 1 initial_state) in
  let r1 := exec posix loop_body initial_state w in
  let r2 := exec posix (main_loop 2) st1 (child_ends 100 (world_of r1)) in
  outcome_of r1 = Returned ((), st1) ∧
  reports (trace_of r1) = [] ∧
  calls (trace_of r2) =
    [Waitpid 100 WNOHANG; Printf "background pid %d is done: " [100];
     Printf ("exit value %d" +:+ LF) [0]; Fflush;
     Printf ": " []; Fflush; Fgets MAX_INPUT;
     Waitpid 100 WNOHANG;
     Printf ": " []; Fflush; Fgets MAX_INPUT] ∧
  reports (trace_of r2) = [100] ∧
  outcome_of r2 = Returned ((), st1) ∧
  tracked st1 = [100].
Proof. by vm_compute. Qed.

(** The wait-status macros on the statuses the kernel produces: an exit
    with code [c] is [c * 256], a death by signal [s] is [s]. *)
Lemma wait_status_exit (c : Z) :
  0 ≤ c < 256 → WIFEXITED (c * 256) = true ∧ WEXITSTATUS (c * 256) = c.
Proof.
  intros Hc.
  assert (Forall (λ c, WIFEXITED (c * 256) = true ∧ WEXITSTATUS (c * 256) = c)
            (seqZ 0 256)) as Hall.
  { refine (bool_decide_unpack _ _). vm_compute. exact I. }
  rewrite Forall_forall in Hall. apply Hall, elem_of_seqZ. lia.
Qed.

Lemma wait_status_signal (s : Z) :
  1 ≤ s < 128 → WIFEXITED s = false ∧ WTERMSIG s = s.
Proof.
  intros Hs.
  assert (Forall (λ s, WIFEXITED s = false ∧ WTERMSIG s = s) (seqZ 1 127)) as Hall.
  { refine (bool_decide_unpack _ _). vm_compute. exact I. }
  rewrite Forall_forall in Hall. apply Hall, elem_of_seqZ. lia.
Qed.

(** * Further properties *)

Lemma wp_conj {A} (p : Prog A) (Q1 Q2 : trace → outcome A → Prop) :
  wp p Q1 → wp p Q2 → wp p (λ t o, Q1 t o ∧ Q2 t o).
Proof.
  revert Q1 Q2. induction p as [a | c k IH | h]; simpl; intros Q1 Q2 H1 H2; try done.
  intros r. apply (IH r _ _ (H1 r) (H2 r)).
Qed.

(** ** The SIGTSTP handler *)

(** X1: one delivery of SIGTSTP flips the flag (0 becomes 1, anything else
    becomes 0), leaves the other globals alone, and issues one [write] to
    standard output whose byte count is the length of the notice for the
    flag it found. *)
Theorem handle_SIGTSTP_flips_and_writes_whole_notice
    {W} (K : kernel W) (w : W) (st : ShellState) :
  let r := exec K (handle_SIGTSTP SIGTSTP) st w in
  outcome_of r = Returned ((), with_foregroundOnly (toggle (foregroundOnly st)) st) ∧
  calls (trace_of r) =
    [Write STDOUT_FILENO (notice (foregroundOnly st))
       (Z.of_nat (String.length (notice (foregroundOnly st))))].
Proof.
  cbv zeta.
  apply (wpM_exec K (handle_SIGTSTP SIGTSTP) st
           (λ t o,
              o = Returned ((), with_foregroundOnly (toggle (foregroundOnly st)) st) ∧
              calls t = [Write STDOUT_FILENO (notice (foregroundOnly st))
                           (Z.of_nat (String.length (notice (foregroundOnly st))))])).
  unfold handle_SIGTSTP, toggle, notice. wp_simpl.
  destruct (foregroundOnly st =? 0); wp_simpl; intros r; by split.
Qed.

Lemma session_flag (ts : list tick) (st : ShellState) :
  wpM (session ts) st
    (λ _ o, ∀ st', o = Returned ((), st') →
                   foregroundOnly st' = Nat.iter (suspends ts) toggle (foregroundOnly st)).
Proof.
  revert st. induction ts as [| [|] ts IH]; intros st.
  - wp_simpl. by intros st' [= <-].
  - cbn [session]. eapply wpM_seq; [apply loop_body_step | | done].
    intros t1 [] st1 (_ & _ & Hfo & _).
    eapply wp_mono; [| apply IH]. intros t2 o Ho st' Hst'.
    rewrite (Ho st' Hst'), Hfo. done.
  - cbn [session]. eapply wpM_seq; [apply handle_SIGTSTP_table | | done].
    intros t1 [] st1 (_ & st' & [= <-] & Hfo & _).
    eapply wp_mono; [| apply IH]. intros t2 o Ho st2 Hst2.
    rewrite (Ho st2 Hst2), Hfo. unfold suspends. cbn [List.filter length].
    by rewrite Nat.iter_succ_r.
Qed.

(** X2: over a session the flag is changed by the deliveries of SIGTSTP
    and by nothing else: after the session it is the flag of the start
    flipped once per delivery, whatever commands were run in between. *)
Theorem session_flag_follows_suspends
    {W} (K : kernel W) (w : W) (st : ShellState) (ts : list tick) :
  let r := exec K (session ts) st w in
  ∀ st', outcome_of r = Returned ((), st') →
         foregroundOnly st' = Nat.iter (suspends ts) toggle (foregroundOnly st).
Proof. cbv zeta. apply (wpM_exec K (session ts) st _ w (session_flag ts st)). Qed.

Lemma session_flag_follows_suspends_witness :
  let K := fixed_kernel (parent_view 4242 0 ("sleep 5 &" +:+ LF)) in
  ∃ st', outcome_of (exec K (session [Turn; Suspend; Turn; Suspend; Suspend])
                       initial_state ()) = Returned ((), st') ∧
         foregroundOnly st' = 1.
Proof.
  cbv zeta. eexists. split; [vm_compute; reflexivity |].
  apply (session_flag_follows_suspends
           (fixed_kernel (parent_view 4242 0 ("sleep 5 &" +:+ LF))) ()
           initial_state [Turn; Suspend; Turn; Suspend; Suspend]).
  vm_compute. reflexivity.
Defined.

(** ** Kinds of calls *)

Lemma only_nil (P : syscall → bool) : only P [].
Proof. done. Qed.

Lemma only_app (P : syscall → bool) (t1 t2 : trace) :
  only P (t1 ++ t2) ↔ only P t1 ∧ only P t2.
Proof.
  unfold only, calls. rewrite fmap_app, forallb_app. apply andb_true_iff.
Qed.

Lemma only_elem (P : syscall → bool) (t : trace) (e : event) :
  only P t → e ∈ t → P e.1 = true.
Proof.
  unfold only, calls. rewrite forallb_forall. intros Hall He.
  apply Hall, list_elem_of_In, list_elem_of_fmap. by exists e.
Qed.

Lemma only_weaken (P P' : syscall → bool) (t : trace) :
  (∀ c, P c = true → P' c = true) → only P t → only P' t.
Proof.
  unfold only. rewrite !forallb_forall. intros HPP' Hall c Hc. by apply HPP', Hall.
Qed.

(** A property of traces that holds of the empty trace and of the
    concatenation of two traces that have it, goes through a bind. *)
Lemma wpM_seq_trace {A B} (Q : trace → Prop) (m : M A) (f : A → M B) st :
  (∀ t1 t2, Q t1 → Q t2 → Q (t1 ++ t2)) →
  wpM m st (λ t _, Q t) →
  (∀ a st1, wpM (f a) st1 (λ t _, Q t)) →
  wpM (m ≫= f) st (λ t _, Q t).
Proof.
  intros Happ Hm Hf. eapply wpM_seq; [apply Hm | | done].
  intros t1 a st1 Ht1. eapply wp_mono; [| apply Hf]. intros t2 o2 Ht2. by apply Happ.
Qed.

Lemma only_app_2 (P : syscall → bool) (t1 t2 : trace) :
  only P t1 → only P t2 → only P (t1 ++ t2).
Proof. intros. by apply only_app. Qed.

Lemma reap_from_only (P : syscall → bool) (n : nat) (i : Z) (st : ShellState) :
  (∀ c, reap_call c = true → P c = true) →
  wpM (reap_from n i) st (λ t _, only P t).
Proof.
  intros HP.
  cut (wpM (reap_from n i) st (λ t _, only reap_call t)).
  { apply wp_mono. intros t _. by apply only_weaken. }
  clear HP P. revert i st. induction n as [| n IH]; intros i st; [by wp_simpl |].
  cbn [reap_from].
  apply wpM_seq_trace; [apply only_app_2 | unfold bg_read; wp_auto; done |].
  intros h st1.
  apply wpM_seq_trace; [apply only_app_2 | wp_simpl; intros [pid status]; done |].
  intros [pid status] st2.
  apply wpM_seq_trace; [apply only_app_2 | | intros; apply IH].
  unfold report_status. wp_auto; done.
Qed.

Lemma kill_from_only (P : syscall → bool) (n : nat) (i : Z) (st : ShellState) :
  (∀ h, P (Kill h SIGTERM) = true) →
  wpM (kill_from n i) st (λ t _, only P t).
Proof.
  intros HP. revert i st. induction n as [| n IH]; intros i st; [by wp_simpl |].
  cbn [kill_from].
  apply wpM_seq_trace; [apply only_app_2 | unfold bg_read; wp_auto; done |].
  intros h st1.
  apply wpM_seq_trace; [apply only_app_2 | | intros; apply IH].
  wp_simpl. intros r. unfold only, calls. cbn. by rewrite HP.
Qed.

Lemma route_after_read (cmd : Command) (st : ShellState) :
  wpM (route cmd) st (λ t _, only after_read_call t).
Proof.
  unfold route. destruct (args cmd) as [| arg0 rest]; [by wp_simpl |].
  destruct (String.eqb arg0 "exit").
  { unfold builtin_exit. wp_simpl.
    apply wpM_seq_trace; [apply only_app_2 | by apply kill_from_only |].
    intros [] st1. by wp_simpl. }
  destruct (String.eqb arg0 "cd"); [unfold builtin_cd; wp_auto; done |].
  destruct (String.eqb arg0 "status"); [unfold builtin_status; wp_auto; done |].
  unfold executeCommand, child_branch, parent_branch, redirect_input,
    redirect_output, execvp, bg_append.
  wp_auto; done.
Qed.

(** ** The shape of a turn *)

Lemma checkBackgroundProcesses_returns (st : ShellState) :
  wf_table st →
  wpM checkBackgroundProcesses st
    (λ t o, o = Returned ((), st) ∧ only reap_call t).
Proof.
  intros [Hcnt Hlen]. unfold checkBackgroundProcesses. wp_simpl.
  eapply wp_mono;
    [| apply (wp_conj _ _ _
                (reap_from_polls (Z.to_nat (bgCount st)) 0 st ltac:(lia) ltac:(lia) Hlen)
                (reap_from_only reap_call (Z.to_nat (bgCount st)) 0 st (λ c H, H)))].
  by intros t o [(-> & _) Honly].
Qed.

Lemma loop_body_shape (st : ShellState) :
  wf_table st → wpM loop_body st (turn_shape st).
Proof.
  intros Hwf. unfold loop_body.
  eapply wpM_seq; [apply (checkBackgroundProcesses_returns st Hwf) | | by intros t h [? _]].
  intros t1 [] st1 [[= <-] Ht1].
  unfold prompt. wp_simpl. intros r1 r2 [input |]; wp_simpl.
  - destruct (skipped_line input) eqn:Hskip; wp_simpl.
    { exists t1, r1, r2, (Some input), []. by rewrite app_nil_r. }
    destruct (MAX_ARGS <=? _) eqn:Hmax; wp_simpl.
    { exists t1, r1, r2, (Some input), []. rewrite app_nil_r.
      split; [done |]. split; [done |]. split; [done |].
      intros [Hs | Hargs]; [congruence |].
      rewrite Hargs in Hmax. discriminate Hmax. }
    destruct (args (parse_line input)) as [| arg0 rest] eqn:Hargs.
    { unfold route. rewrite Hargs. wp_simpl.
      exists t1, r1, r2, (Some input), []. by rewrite app_nil_r. }
    eapply wp_mono; [| apply route_after_read].
    intros t3 o Ht3. exists t1, r1, r2, (Some input), t3.
    split; [done |]. split; [done |]. split; [done |].
    intros [Hs | Ha]; congruence.
  - intros r. exists t1, r1, r2, None, [(Clearerr, RInt r)]. done.
Qed.

Lemma idle_call_reap (c : syscall) : reap_call c = true → idle_call c = true.
Proof. unfold idle_call. by intros ->. Qed.

Lemma shape_read (t1 t3 : trace) (r1 r2 : Z) (line line' : option string) :
  only reap_call t1 → only after_read_call t3 →
  (Fgets MAX_INPUT, RStr line') ∈
    t1 ++ [(Printf ": " [], RInt r1); (Fflush, RInt r2);
           (Fgets MAX_INPUT, RStr line)] ++ t3 →
  line' = line.
Proof.
  intros H1 H3 Hin. apply elem_of_app in Hin as [Hin | Hin].
  { by apply (only_elem _ _ _ H1) in Hin. }
  apply elem_of_app in Hin as [Hin | Hin].
  - trace_facts. congruence.
  - by apply (only_elem _ _ _ H3) in Hin.
Qed.

(** X3: a turn whose line gives nothing to run - the read failed, the
    line starts with [#] or is empty, or it holds no argument (only
    blanks, only redirections, a lone [&]) - leaves the globals as they
    are and consists of the reap cycle, the prompt and the read, with
    [clearerr] after a failed read: nothing is forked, signalled or
    printed besides. *)
Theorem idle_line_runs_nothing
    {W} (K : kernel W) (w : W) (st : ShellState) :
  wf_table st →
  let r := exec K loop_body st w in
  ∀ line, (Fgets MAX_INPUT, RStr line) ∈ trace_of r → idle_line line →
          outcome_of r = Returned ((), st) ∧ only idle_call (trace_of r).
Proof.
  intros Hwf. cbv zeta.
  pose proof (wpM_exec K loop_body st _ w (loop_body_shape st Hwf))
    as (t1 & r1 & r2 & line0 & t3 & Ht & H1 & H3 & Hidle).
  intros line Hin Hline. rewrite Ht in *.
  apply (shape_read t1 t3 r1 r2 line0 line H1 H3) in Hin as ->.
  destruct (Hidle Hline) as [Ho Hc3]. split; [done |].
  apply only_app_2; [by apply (only_weaken reap_call), H1; apply idle_call_reap |].
  apply only_app_2; [done |]. unfold only. rewrite Hc3. by destruct line0.
Qed.

Lemma idle_line_runs_nothing_witness :
  let K := fixed_kernel (parent_view 4242 0 ("< in.txt > out.txt" +:+ LF)) in
  wf_table initial_state ∧
  idle_line (Some ("< in.txt > out.txt" +:+ LF)) ∧
  outcome_of (exec K loop_body initial_state ()) = Returned ((), initial_state) ∧
  only idle_call (trace_of (exec K loop_body initial_state ())).
Proof.
  cbv zeta. split; [exact wf_table_initial |].
  assert (idle_line (Some ("< in.txt > out.txt" +:+ LF))) as Hidle
    by (right; reflexivity).
  split; [exact Hidle |].
  apply (idle_line_runs_nothing
           (fixed_kernel (parent_view 4242 0 ("< in.txt > out.txt" +:+ LF))) ()
           initial_state wf_table_initial (Some ("< in.txt > out.txt" +:+ LF)));
    [| exact Hidle].
  vm_compute. repeat constructor.
Defined.

Lemma run_answered {W A} (K : kernel W) (p : Prog A) (w : W) :
  Forall (λ e : event, ∃ w', e.2 = reify e.1 (answer K e.1 w').1) (run K p w).2.
Proof.
  revert w. induction p as [a | c k IH | h]; simpl; intros w; try done.
  destruct (answer K c w) as [r w1] eqn:Hans.
  specialize (IH r w1). destruct (run K (k r) w1) as [[o w2] t].
  constructor; [| exact IH]. exists w. change ((c, reify c r).2) with (reify c r).
  change ((c, reify c r).1) with c. by rewrite Hans.
Qed.

Lemma main_loop_end_of_input (n : nat) (st : ShellState) :
  wf_table st →
  wpM (main_loop n) st
    (λ t o, (∀ line, (Fgets MAX_INPUT, RStr line) ∈ t → line = None) →
            o = Returned ((), st) ∧
            length (List.filter is_clearerr (calls t)) = n ∧
            only idle_call t).
Proof.
  intros Hwf. induction n as [| n IH]; [by wp_simpl |].
  cbn [main_loop]. eapply wpM_seq; [apply (loop_body_shape st Hwf) | |].
  - intros t1 [] st1 (ta & r1 & r2 & line & t3 & -> & Ha & H3 & Hidle).
    destruct line as [input |].
    { apply wp_any. intros t2 o Hnone. exfalso.
      assert (Some input = None) as Habs; [| discriminate Habs].
      apply Hnone. apply elem_of_app. left. apply elem_of_app. right.
      apply elem_of_app. left. repeat constructor. }
    destruct (Hidle I) as [[= <-] Hc3].
    eapply wp_mono; [| apply IH]. intros t2 o Ht2 Hnone.
    destruct Ht2 as (-> & Hcount & Honly).
    { intros l Hl. apply Hnone. apply elem_of_app. by right. }
    split; [done |].
    assert (List.filter is_clearerr (calls ta) = []) as Hfa.
    { clear -Ha. unfold only in Ha. induction (calls ta) as [| c cs IHc]; [done |].
      cbn in *. apply andb_true_iff in Ha as [Hc Hcs].
      destruct c; try done; cbn; by apply IHc. }
    split.
    + unfold calls in *. rewrite !fmap_app, !List.filter_app, !length_app.
      rewrite Hfa, Hc3, Hcount. cbn. lia.
    + apply only_app_2; [| done].
      apply only_app_2; [by apply (only_weaken reap_call), Ha; apply idle_call_reap |].
      apply only_app_2; [done |]. unfold only. by rewrite Hc3.
  - intros t1 h (ta & r1 & r2 & line & t3 & -> & Ha & H3 & Hidle) Hnone.
    assert (line = None) as ->.
    { apply Hnone. apply elem_of_app. right. apply elem_of_app. left.
      repeat constructor. }
    by destruct (Hidle I) as [? _].
Qed.

(** X4: at the end of input the shell does not exit.  When every read
    fails, each turn is the reap cycle, the prompt, the failed read and
    [clearerr]; any number of turns leaves the globals as they are and
    returns to the loop. *)
Theorem end_of_input_never_exits
    {W} (K : kernel W) (w : W) (st : ShellState) (n : nat) :
  wf_table st →
  (∀ w', (answer K (Fgets MAX_INPUT) w').1 = None) →
  let r := exec K (main_loop n) st w in
  outcome_of r = Returned ((), st) ∧
  length (List.filter is_clearerr (calls (trace_of r))) = n ∧
  only idle_call (trace_of r).
Proof.
  intros Hwf Heof. cbv zeta.
  apply (wpM_exec K (main_loop n) st _ w (main_loop_end_of_input n st Hwf)).
  intros line Hin.
  pose proof (run_answered K (main_loop n st) w) as Hans.
  rewrite Forall_forall in Hans. destruct (Hans _ Hin) as [w' Hw'].
  cbn in Hw'. injection Hw' as ->. apply Heof.
Qed.

Lemma end_of_input_never_exits_witness :
  wf_table initial_state ∧
  (∀ w', (answer (fixed_kernel no_fork) (Fgets MAX_INPUT) w').1 = None) ∧
  outcome_of (exec (fixed_kernel no_fork) (main_loop 7) initial_state ()) =
    Returned ((), initial_state).
Proof.
  assert (∀ w', (answer (fixed_kernel no_fork) (Fgets MAX_INPUT) w').1 = None)
    as Heof by (intros []; reflexivity).
  split; [exact wf_table_initial |]. split; [exact Heof |].
  apply (end_of_input_never_exits (fixed_kernel no_fork) () initial_state 7
           wf_table_initial Heof).
Defined.

(** X5: a turn prints the prompt exactly once, and every completion
    report of the turn is printed before it: nothing before the prompt is
    a prompt, and nothing after it is a prompt or a completion report. *)
Theorem one_prompt_after_the_reports
    {W} (K : kernel W) (w : W) (st : ShellState) :
  wf_table st →
  let r := exec K loop_body st w in
  ∃ before r1 after,
    trace_of r = before ++ (Printf ": " [], RInt r1) :: after ∧
    only reap_call before ∧
    only not_prompt before ∧
    only not_prompt_nor_report after.
Proof.
  intros Hwf. cbv zeta.
  pose proof (wpM_exec K loop_body st _ w (loop_body_shape st Hwf))
    as (t1 & r1 & r2 & line & t3 & Ht & H1 & H3 & _).
  exists t1, r1, ((Fflush, RInt r2) :: (Fgets MAX_INPUT, RStr line) :: t3).
  split; [done |]. split; [done |]. split.
  - apply (only_weaken reap_call); [| done].
    intros c Hc. unfold not_prompt. by destruct c as [| | | | | | | | ? [| ? []] | | | | | | |].
  - apply (only_app_2 _ [_; _]); [done |].
    apply (only_weaken after_read_call); [| done].
    intros c Hc. unfold not_prompt_nor_report. by destruct c.
Qed.

Lemma one_prompt_after_the_reports_witness :
  ∃ before r1 after,
    trace_of (exec posix loop_body one_job job_ended) =
      before ++ (Printf ": " [], RInt r1) :: after ∧
    only reap_call before ∧
    only not_prompt before ∧
    only not_prompt_nor_report after.
Proof.
  apply (one_prompt_after_the_reports posix job_ended one_job wf_table_one_job).
Defined.

(** ** What the shell process itself never does *)

Lemma child_or_clean_app (t1 t2 : trace) :
  child_or_clean t1 → child_or_clean t2 → child_or_clean (t1 ++ t2).
Proof.
  intros [H1 | H1] [H2 | H2].
  1-3: left; apply elem_of_app; auto.
  right. by apply only_app_2.
Qed.

Lemma route_child_or_clean (cmd : Command) (st : ShellState) :
  wpM (route cmd) st (λ t _, child_or_clean t).
Proof.
  unfold route. destruct (args cmd) as [| arg0 rest]; [by right |].
  destruct (String.eqb arg0 "exit").
  { unfold builtin_exit. wp_simpl.
    apply wpM_seq_trace; [apply child_or_clean_app | |].
    - eapply wp_mono; [| by apply (kill_from_only not_child_only)]. by right.
    - intros [] st1. wp_simpl. by right. }
  destruct (String.eqb arg0 "cd"); [unfold builtin_cd; wp_auto; by right |].
  destruct (String.eqb arg0 "status"); [unfold builtin_status; wp_auto; by right |].
  unfold executeCommand. wp_simpl. intros pid. cbn in pid.
  destruct (Z.eqb_spec pid (-1)) as [-> | Hne1]; [wp_auto; by right |].
  destruct (Z.eqb_spec pid 0) as [-> | Hne0].
  { apply wp_any. intros t o. left. apply list_elem_of_here. }
  unfold parent_branch, bg_append. wp_auto; by right.
Qed.

Lemma loop_body_child_or_clean (st : ShellState) :
  wpM loop_body st (λ t _, child_or_clean t).
Proof.
  unfold loop_body.
  apply wpM_seq_trace; [apply child_or_clean_app | |].
  { unfold checkBackgroundProcesses. wp_simpl.
    eapply wp_mono; [| apply (reap_from_only not_child_only)].
    - by right.
    - intros c Hc. by destruct c. }
  intros [] st1.
  apply wpM_seq_trace; [apply child_or_clean_app | unfold prompt; wp_auto; by right |].
  intros [] st2.
  apply wpM_seq_trace; [apply child_or_clean_app | wp_simpl; intros line; by right |].
  intros [input |] st3.
  - destruct (skipped_line input); [by right |].
    destruct (MAX_ARGS <=? _); [by right |]. apply route_child_or_clean.
  - wp_auto. by right.
Qed.

Lemma session_child_or_clean (ts : list tick) (st : ShellState) :
  wpM (session ts) st (λ t _, child_or_clean t).
Proof.
  revert st. induction ts as [| [|] ts IH]; intros st; [by right | |]; cbn [session].
  - apply wpM_seq_trace; [apply child_or_clean_app | apply loop_body_child_or_clean |].
    intros [] st1. apply IH.
  - apply wpM_seq_trace; [apply child_or_clean_app | |].
    + unfold handle_SIGTSTP. wp_auto; by right.
    + intros [] st1. apply IH.
Qed.

(** X6: over a whole session after start-up, with signals delivered in
    between, the shell process itself never opens, duplicates or closes a descriptor,
    never changes a signal disposition and never replaces its image:
    those calls occur only in a process for which [fork] returned 0. *)
Theorem shell_makes_no_child_calls
    {W} (K : kernel W) (w : W) (st : ShellState) (ts : list tick) :
  let r := exec K (session ts) st w in
  (Fork, RInt 0) ∉ trace_of r → only not_child_only (trace_of r).
Proof.
  cbv zeta. intros Hshell.
  by destruct (wpM_exec K (session ts) st _ w (session_child_or_clean ts st)).
Qed.

Lemma shell_makes_no_child_calls_witness :
  let K := fixed_kernel (parent_view 4242 0 ("cat < in.txt > out.txt &" +:+ LF)) in
((Fork, RInt 0) ∉
     trace_of (exec K (session [Turn; Suspend; Turn]) initial_state ())) ∧
  only not_child_only
    (trace_of (exec K (session [Turn; Suspend; Turn]) initial_state ())).
Proof.
  cbv zeta.
  assert ((Fork, RInt 0) ∉
          trace_of (exec (fixed_kernel
                            (parent_view 4242 0 ("cat < in.txt > out.txt &" +:+ LF)))
                      (session [Turn; Suspend; Turn]) initial_state ())) as Hshell.
  { vm_compute. intros H.
    repeat (apply elem_of_cons in H as [H | H]; [discriminate H |]).
    by apply elem_of_nil in H. }
  split; [exact Hshell |].
  exact (shell_makes_no_child_calls _ () initial_state [Turn; Suspend; Turn] Hshell).
Defined.

(** ** Routing *)

(** X7: a line whose first argument is [exit], [cd] or [status] is run by
    the shell itself whatever else the line asks for: its redirections
    and its [&] are ignored (the program run is that of the same
    arguments without them), and nothing is forked, opened or waited
    for. *)
Theorem builtins_ignore_redirection_and_background
    (cmd : Command) (arg0 : string) :
  head (args cmd) = Some arg0 → is_builtin arg0 = true →
  route cmd =
    route {| args := args cmd; background := 0;
             inputFile := None; outputFile := None |} ∧
  ∀ W (K : kernel W) (w : W) (st : ShellState),
    only builtin_call (trace_of (exec K (route cmd) st w)).
Proof.
  intros Hhead Hb. unfold is_builtin in Hb. split.
  - unfold route. cbn [args]. destruct (args cmd) as [| a rest] eqn:Hargs; [done |].
    injection Hhead as ->.
    destruct (String.eqb arg0 "exit"); [done |].
    destruct (String.eqb arg0 "cd"); [by unfold builtin_cd; cbn [args]; rewrite Hargs |].
    by destruct (String.eqb arg0 "status").
  - intros W K w st.
    apply (wpM_exec K (route cmd) st (λ t _, only builtin_call t)).
    unfold route. destruct (args cmd) as [| a rest]; [done |].
    injection Hhead as ->.
    destruct (String.eqb arg0 "exit").
    { unfold builtin_exit. wp_simpl.
      apply wpM_seq_trace; [apply only_app_2 | by apply kill_from_only |].
      intros [] st1. by wp_simpl. }
    destruct (String.eqb arg0 "cd"); [unfold builtin_cd; wp_auto; done |].
    destruct (String.eqb arg0 "status"); [unfold builtin_status; wp_auto; done |].
    done.
Qed.

Lemma builtins_ignore_redirection_and_background_witness :
  let cmd := parse_line ("status > out.txt &" +:+ LF) in
  (head (args cmd) = Some "status" ∧ is_builtin "status" = true ∧
   background cmd = 1 ∧ outputFile cmd = Some "out.txt") ∧
  only builtin_call
    (trace_of (exec (fixed_kernel (parent_view 4242 0 ("status > out.txt &" +:+ LF)))
                 (route cmd) initial_state ())).
Proof.
  cbv zeta. split; [by repeat split |].
  apply (builtins_ignore_redirection_and_background
           (parse_line ("status > out.txt &" +:+ LF)) "status");
    reflexivity.
Defined.

(** ** Background jobs and the last status over a session *)

(** X8: with the flag clear and room in the table, the parent of a
    command typed with [&] prints the child's pid, flushes, and returns at
    once without any [waitpid]; the pid is appended behind the handles
    already tracked, and the last status is left as it was. *)
Theorem background_job_is_announced_and_appended
    {W} (K : kernel W) (w : W) (st : ShellState)
    (a : list string) (bg : Z) (inF outF : option string) :
  wf_table st → bg ≠ 0 → foregroundOnly st = 0 → bgCount st < BG_CAPACITY →
  let r := exec K (executeCommand a bg inF outF) st w in
  ∀ pid, head (trace_of r) = Some (Fork, RInt pid) → pid ≠ -1 → pid ≠ 0 →
    calls (trace_of r) =
      [Fork; Printf ("background pid is %d" +:+ LF) [pid]; Fflush] ∧
    ∃ st', outcome_of r = Returned ((), st') ∧
           tracked st' = tracked st ++ [pid] ∧
           bgCount st' = bgCount st + 1 ∧
           lastExitStatus st' = lastExitStatus st ∧
           foregroundOnly st' = foregroundOnly st.
Proof.
  intros Hwf Hbg Hfo Hroom. cbv zeta.
  apply (wpM_exec K (executeCommand a bg inF outF) st
           (λ t o,
              ∀ pid, head t = Some (Fork, RInt pid) → pid ≠ -1 → pid ≠ 0 →
                calls t = [Fork; Printf ("background pid is %d" +:+ LF) [pid]; Fflush] ∧
                ∃ st', o = Returned ((), st') ∧
                       tracked st' = tracked st ++ [pid] ∧
                       bgCount st' = bgCount st + 1 ∧
                       lastExitStatus st' = lastExitStatus st ∧
                       foregroundOnly st' = foregroundOnly st)).
  unfold executeCommand. wp_simpl. intros pid'. cbn in pid'.
  destruct (Z.eqb_spec pid' (-1)) as [-> | Hne1].
  { apply wp_any. by intros t o pid [= <-]. }
  destruct (Z.eqb_spec pid' 0) as [-> | Hne0].
  { apply wp_any. by intros t o pid [= <-]. }
  unfold parent_branch, bg_append. wp_simpl.
  rewrite Hfo. apply Z.eqb_neq in Hbg. rewrite Hbg. cbn [negb andb Z.eqb].
  wp_simpl. intros r1 r2.
  destruct Hwf as [Hcnt Hlen].
  destruct (Z.leb_spec 0 (bgCount st)); [| lia].
  destruct (Z.ltb_spec (bgCount st) BG_CAPACITY); [| lia].
  wp_simpl. intros pid [= <-] _ _. split; [done |].
  exists (with_bgProcesses (<[Z.to_nat (bgCount st) := pid']> (bgProcesses st))
            (with_bgCount (bgCount st + 1) st)).
  split; [reflexivity |].
  split; [by apply tracked_append |]. done.
Qed.

Lemma background_job_is_announced_and_appended_witness :
  let K := fixed_kernel (parent_view 4243 0 ("sleep 5 &" +:+ LF)) in
  (wf_table one_job ∧ 1 ≠ 0 ∧ foregroundOnly one_job = 0 ∧
   bgCount one_job < BG_CAPACITY) ∧
  calls (trace_of (exec K (executeCommand ["sleep"; "5"] 1 None None) one_job ())) =
    [Fork; Printf ("background pid is %d" +:+ LF) [4243]; Fflush] ∧
  ∃ st', outcome_of (exec K (executeCommand ["sleep"; "5"] 1 None None) one_job ()) =
           Returned ((), st') ∧
         tracked st' = tracked one_job ++ [4243] ∧
         bgCount st' = bgCount one_job + 1 ∧
         lastExitStatus st' = lastExitStatus one_job ∧
         foregroundOnly st' = foregroundOnly one_job.
Proof.
  cbv zeta.
  assert (bgCount one_job < BG_CAPACITY) as Hroom by (vm_compute; reflexivity).
  split; [split; [exact wf_table_one_job | split; [lia | split; [reflexivity | exact Hroom]]] |].
  apply (background_job_is_announced_and_appended
           (fixed_kernel (parent_view 4243 0 ("sleep 5 &" +:+ LF))) () one_job
           ["sleep"; "5"] 1 None None wf_table_one_job ltac:(lia) eq_refl Hroom 4243);
    [reflexivity | lia | lia].
Defined.

Lemma wpM_seq_rel {A B} (R : ShellState → trace → ShellState → Prop)
    (m : M A) (f : A → M B) (st : ShellState) :
  (∀ s0 t1 s1 t2 s2, R s0 t1 s1 → R s1 t2 s2 → R s0 (t1 ++ t2) s2) →
  wpM m st (rel_post R st) →
  (∀ a st1, wpM (f a) st1 (rel_post R st1)) →
  wpM (m ≫= f) st (rel_post R st).
Proof.
  intros Htrans Hm Hf. eapply wpM_seq; [apply Hm | | by intros t h _ a st' [=]].
  intros t1 a st1 H1. eapply wp_mono; [| apply Hf].
  intros t2 o H2 b st2 ->. eapply Htrans; [by apply (H1 a) | by apply (H2 b)].
Qed.

Lemma announced_pids_app (t1 t2 : trace) :
  announced_pids (t1 ++ t2) = announced_pids t1 ++ announced_pids t2.
Proof. apply omap_app. Qed.

Lemma table_grows_trans (s0 : ShellState) (t1 : trace) (s1 : ShellState)
    (t2 : trace) (s2 : ShellState) :
  table_grows s0 t1 s1 → table_grows s1 t2 s2 → table_grows s0 (t1 ++ t2) s2.
Proof.
  intros H1 H2 Hwf. destruct (H1 Hwf) as [Hwf1 Ht1].
  destruct (H2 Hwf1) as [Hwf2 Ht2]. split; [done |].
  by rewrite Ht2, Ht1, announced_pids_app, app_assoc.
Qed.

Lemma last_foreground_app (t1 t2 : trace) (v : Z) :
  last_foreground (t1 ++ t2) v = last_foreground t2 (last_foreground t1 v).
Proof. apply foldl_app. Qed.

Lemma status_follows_trans (s0 : ShellState) (t1 : trace) (s1 : ShellState)
    (t2 : trace) (s2 : ShellState) :
  status_follows s0 t1 s1 → status_follows s1 t2 s2 →
  status_follows s0 (t1 ++ t2) s2.
Proof.
  unfold status_follows. intros H1 H2. by rewrite last_foreground_app, <- H1.
Qed.


Lemma plain_announced_pids (t : trace) : only plain_call t → announced_pids t = [].
Proof.
  unfold only, calls, announced_pids.
  induction t as [| [c r] t IH]; [done |]. cbn.
  intros [Hc Ht]%andb_true_iff. rewrite (IH Ht).
  destruct c as [| | | | | | | | fmt [| v []] | | | | | | |]; try done.
  cbn in Hc. by destruct (String.eqb fmt _).
Qed.

Lemma plain_last_foreground (t : trace) (v : Z) :
  only plain_call t → last_foreground t v = v.
Proof.
  unfold only, calls, last_foreground.
  induction t as [| [c r] t IH]; [done |]. cbn.
  intros [Hc Ht]%andb_true_iff.
  destruct c; try (by apply IH). destruct r; try (by apply IH).
  cbn in Hc. destruct (options =? 0); [done | by apply IH].
Qed.

Lemma plain_table_grows (st : ShellState) (t : trace) :
  only plain_call t → table_grows st t st.
Proof.
  intros Hp Hwf. split; [done |]. by rewrite (plain_announced_pids t Hp), app_nil_r.
Qed.

Lemma plain_status_follows (st : ShellState) (t : trace) :
  only plain_call t → status_follows st t st.
Proof. intros Hp. unfold status_follows. by rewrite plain_last_foreground. Qed.

Lemma reap_call_plain (c : syscall) : reap_call c = true → plain_call c = true.
Proof.
  destruct c as [| | | | | | | pid options | fmt [| v []] | | | | | | |]; try done; cbn.
  - intros ->%Z.eqb_eq. done.
  - intros H.
    destruct (String.eqb_spec fmt ("background pid is %d" +:+ LF)) as [-> | _]; done.
Qed.

Lemma frame_rel {A} (R : ShellState → trace → ShellState → Prop)
    (m : M A) (st : ShellState) :
  (∀ t, only plain_call t → R st t st) →
  wpM m st (quiet_frame st) →
  wpM m st (λ t _, only plain_call t) →
  wpM m st (rel_post R st).
Proof.
  intros HR Hq Hp. eapply wp_mono; [| apply (wp_conj _ _ _ Hq Hp)].
  intros t o [[_ Ho] Hpl] a st' ->. subst st'. by apply HR.
Qed.

Lemma checkBackgroundProcesses_plain (st : ShellState) :
  wpM checkBackgroundProcesses st (λ t _, only plain_call t).
Proof.
  unfold checkBackgroundProcesses. wp_simpl.
  apply reap_from_only, reap_call_plain.
Qed.

Lemma wf_table_append (st : ShellState) (pid : Z) :
  wf_table st → bgCount st < BG_CAPACITY →
  wf_table (with_bgProcesses (<[Z.to_nat (bgCount st) := pid]> (bgProcesses st))
              (with_bgCount (bgCount st + 1) st)).
Proof.
  intros [Hcnt Hlen] Hroom. split; cbn; [lia |]. by rewrite length_insert.
Qed.

Lemma route_table_grows (cmd : Command) (st : ShellState) :
  wpM (route cmd) st (rel_post table_grows st).
Proof.
  unfold route. destruct (args cmd) as [| arg0 rest].
  { wp_simpl. intros a st' [= <- <-]. by apply plain_table_grows. }
  destruct (String.eqb arg0 "exit").
  { unfold builtin_exit. wp_simpl.
    eapply wpM_seq; [apply (wp_any _ (λ _ _, True)); done | | by intros t h _ a st' [=]].
    intros t1 [] st1 _. wp_simpl. by intros a st' [=]. }
  destruct (String.eqb arg0 "cd").
  { unfold builtin_cd. wp_auto.
    all: intros a st' [= <- <-]; by apply plain_table_grows. }
  destruct (String.eqb arg0 "status").
  { unfold builtin_status. wp_auto.
    all: intros a st' [= <- <-]; by apply plain_table_grows. }
  unfold executeCommand, child_branch, parent_branch, redirect_input,
    redirect_output, execvp, bg_append.
  wp_auto.
  all: intros a st' Heq; simplify_eq.
  all: try (by apply plain_table_grows).
  - apply andb_true_iff in Heqb2 as [_ Hroom%Z.ltb_lt].
    intros Hwf. split; [by apply wf_table_append |]. by apply tracked_append.
  - intros Hwf. split; [exact Hwf |]. unfold tracked. cbn. by rewrite app_nil_r.
  - intros Hwf. split; [exact Hwf |]. unfold tracked. cbn. by rewrite app_nil_r.
Qed.

Lemma loop_body_rel (R : ShellState → trace → ShellState → Prop) (st : ShellState) :
  (∀ s0 t1 s1 t2 s2, R s0 t1 s1 → R s1 t2 s2 → R s0 (t1 ++ t2) s2) →
  (∀ s t, only plain_call t → R s t s) →
  (∀ cmd s, wpM (route cmd) s (rel_post R s)) →
  wpM loop_body st (rel_post R st).
Proof.
  intros Htrans Hplain Hroute. unfold loop_body.
  apply wpM_seq_rel; [done | |].
  { apply frame_rel; [apply Hplain | apply checkBackgroundProcesses_quiet
                     | apply checkBackgroundProcesses_plain]. }
  intros [] st1. apply wpM_seq_rel; [done | |].
  { unfold prompt. wp_auto. intros a st' [= <- <-]. by apply Hplain. }
  intros [] st2. apply wpM_seq_rel; [done | |].
  { wp_simpl. intros line a st' [= <- <-]. by apply Hplain. }
  intros [input |] st3.
  - destruct (skipped_line input).
    { wp_simpl. intros a st' [= <- <-]. by apply Hplain. }
    destruct (MAX_ARGS <=? _); [wp_simpl; by intros a st' [=] |]. apply Hroute.
  - wp_auto. intros a st' [= <- <-]. by apply Hplain.
Qed.

Lemma session_rel (R : ShellState → trace → ShellState → Prop)
    (ts : list tick) (st : ShellState) :
  (∀ s0 t1 s1 t2 s2, R s0 t1 s1 → R s1 t2 s2 → R s0 (t1 ++ t2) s2) →
  (∀ s t, only plain_call t → R s t s) →
  (∀ cmd s, wpM (route cmd) s (rel_post R s)) →
  (∀ s, wpM (handle_SIGTSTP SIGTSTP) s (rel_post R s)) →
  wpM (session ts) st (rel_post R st).
Proof.
  intros Htrans Hplain Hroute Hsig. revert st.
  induction ts as [| [|] ts IH]; intros st; cbn [session].
  - wp_simpl. intros a st' [= <- <-]. by apply Hplain.
  - apply wpM_seq_rel; [done | by apply loop_body_rel |]. intros [] st1. apply IH.
  - apply wpM_seq_rel; [done | apply Hsig |]. intros [] st1. apply IH.
Qed.

Lemma handle_SIGTSTP_table_grows (st : ShellState) :
  wpM (handle_SIGTSTP SIGTSTP) st (rel_post table_grows st).
Proof.
  unfold handle_SIGTSTP. wp_auto.
  all: intros a st' [= <- <-] Hwf; split; [exact Hwf |].
  all: unfold tracked; cbn; by rewrite app_nil_r.
Qed.

(** X9: the table is append-only over a whole session.  After any
    sequence of turns and signals that returns to the loop, the handles
    in the table are those of the start followed by exactly the pids
    announced as background jobs during the session, in the order of
    their announcements: no handle is overwritten, reordered or
    dropped. *)
Theorem table_is_the_announced_pids
    {W} (K : kernel W) (w : W) (st : ShellState) (ts : list tick) :
  wf_table st →
  let r := exec K (session ts) st w in
  ∀ st', outcome_of r = Returned ((), st') →
         wf_table st' ∧
         tracked st' = tracked st ++ announced_pids (trace_of r).
Proof.
  intros Hwf. cbv zeta. intros st' Ho.
  apply (wpM_exec K (session ts) st _ w
           (session_rel table_grows ts st table_grows_trans plain_table_grows
              route_table_grows handle_SIGTSTP_table_grows) () st' Ho Hwf).
Qed.

Lemma table_is_the_announced_pids_witness :
  let w := {| children := ∅; next_pid := 100;
              stdin := ["sleep 5 &" +:+ LF; "ls" +:+ LF; "sleep 9 &" +:+ LF] |} in
  wf_table initial_state ∧
  ∃ st', outcome_of (exec posix (session [Turn; Turn; Suspend; Suspend; Turn])
                       initial_state w) = Returned ((), st') ∧
         wf_table st' ∧
         tracked st' =
           tracked initial_state ++
           announced_pids
             (trace_of (exec posix (session [Turn; Turn; Suspend; Suspend; Turn])
                          initial_state w)).
Proof.
  cbv zeta. split; [exact wf_table_initial |].
  eexists. split; [vm_compute; reflexivity |].
  apply (table_is_the_announced_pids posix
           {| children := ∅; next_pid := 100;
              stdin := ["sleep 5 &" +:+ LF; "ls" +:+ LF; "sleep 9 &" +:+ LF] |}
           initial_state [Turn; Turn; Suspend; Suspend; Turn] wf_table_initial).
  vm_compute. reflexivity.
Defined.

Lemma route_status_follows (cmd : Command) (st : ShellState) :
  wpM (route cmd) st (rel_post status_follows st).
Proof.
  unfold route. destruct (args cmd) as [| arg0 rest].
  { wp_simpl. by intros a st' [= <- <-]. }
  destruct (String.eqb arg0 "exit").
  { unfold builtin_exit. wp_simpl.
    eapply wpM_seq; [apply (wp_any _ (λ _ _, True)); done | | by intros t h _ a st' [=]].
    intros t1 [] st1 _. wp_simpl. by intros a st' [=]. }
  destruct (String.eqb arg0 "cd").
  { unfold builtin_cd. wp_auto. all: by intros a st' [= <- <-]. }
  destruct (String.eqb arg0 "status").
  { unfold builtin_status. wp_auto. all: by intros a st' [= <- <-]. }
  unfold executeCommand, child_branch, parent_branch, redirect_input,
    redirect_output, execvp, bg_append.
  wp_auto.
  all: intros a st' Heq; simplify_eq.
  all: unfold status_follows, last_foreground, decode_status; cbn; try done.
  all: by rewrite ?Heqb2, ?Heqb1.
Qed.

Lemma handle_SIGTSTP_status_follows (st : ShellState) :
  wpM (handle_SIGTSTP SIGTSTP) st (rel_post status_follows st).
Proof. unfold handle_SIGTSTP. wp_auto. all: by intros a st' [= <- <-]. Qed.

(** X10: over a whole session [lastExitStatus] follows the blocking waits
    and nothing else: after the session it is what the status stored by
    the last blocking [waitpid] decodes to (exit code, else signal
    number), or the value of the start when there was none.  Reaping
    background jobs, built-ins, signals and background launches leave it
    alone. *)
Theorem last_status_follows_the_foreground_waits
    {W} (K : kernel W) (w : W) (st : ShellState) (ts : list tick) :
  let r := exec K (session ts) st w in
  ∀ st', outcome_of r = Returned ((), st') →
         lastExitStatus st' = last_foreground (trace_of r) (lastExitStatus st).
Proof.
  cbv zeta. intros st' Ho.
  apply (wpM_exec K (session ts) st _ w
           (session_rel status_follows ts st status_follows_trans
              plain_status_follows route_status_follows
              handle_SIGTSTP_status_follows) () st' Ho).
Qed.

Lemma last_status_follows_the_foreground_waits_witness :
  let w := {| children := {[4242 := Zombie 768]}; next_pid := 4243;
              stdin := ["ls" +:+ LF; "status" +:+ LF] |} in
  ∃ st', outcome_of (exec posix (session [Turn; Turn]) one_job w) =
           Returned ((), st') ∧
         lastExitStatus st' =
           last_foreground (trace_of (exec posix (session [Turn; Turn]) one_job w))
             (lastExitStatus one_job).
Proof.
  cbv zeta. eexists. split; [vm_compute; reflexivity |].
  apply (last_status_follows_the_foreground_waits posix
           {| children := {[4242 := Zombie 768]}; next_pid := 4243;
              stdin := ["ls" +:+ LF; "status" +:+ LF] |}
           one_job [Turn; Turn]).
  vm_compute. reflexivity.
Defined.

(** ** The child *)

(** X11: the child never comes back as a second shell.  In the process
    for which [fork] returned 0 the command ends in [exit (1)] (a
    redirection or [execvp] failed) or in the image of [args[0]] started
    with the arguments as typed; it makes no call besides descriptor
    calls, [sigaction], [execvp] and [perror]; and it could fall back into
    the loop only if [execvp] returned something other than -1. *)
Theorem child_exits_or_becomes_the_program
    {W} (K : kernel W) (w : W) (st : ShellState)
    (a : list string) (bg : Z) (inF outF : option string) :
  let r := exec K (executeCommand a bg inF outF) st w in
  head (trace_of r) = Some (Fork, RInt 0) →
  only child_call (tail (trace_of r)) ∧
  (outcome_of r = Halted (HExit 1) ∨
   outcome_of r = Halted (HExec (head a) a) ∨
   ∃ e, e ≠ -1 ∧ (Execvp (head a) a, RExec (Some e)) ∈ trace_of r ∧
        outcome_of r = Returned ((), st)).
Proof.
  cbv zeta.
  apply (wpM_exec K (executeCommand a bg inF outF) st
           (λ t o,
              head t = Some (Fork, RInt 0) →
              only child_call (tail t) ∧
              (o = Halted (HExit 1) ∨ o = Halted (HExec (head a) a) ∨
               ∃ e, e ≠ -1 ∧ (Execvp (head a) a, RExec (Some e)) ∈ t ∧
                    o = Returned ((), st)))).
  unfold executeCommand. wp_simpl. intros pid. cbn in pid.
  destruct (Z.eqb_spec pid 0) as [-> | Hne0].
  2: { apply wp_any. by intros t o [= ->]. }
  cbn [Z.eqb].
  unfold child_branch, redirect_input, redirect_output, execvp.
  wp_auto.
  all: intros _; split; [done |].
  all: try (left; reflexivity).
  all: try (right; left; reflexivity).
  all: right; right.
  all: match goal with H : (?z =? -1) = false |- _ =>
         exists z; apply Z.eqb_neq in H; split; [done |]; split; [| done]
       end.
  all: repeat constructor.
Qed.

Lemma child_exits_or_becomes_the_program_witness :
  let K := fixed_kernel (child_view 3 None) in
  only child_call
    (tail (trace_of (exec K (executeCommand ["cat"] 0 (Some "in.txt") None)
                       initial_state ()))) ∧
  outcome_of (exec K (executeCommand ["cat"] 0 (Some "in.txt") None)
                initial_state ()) = Halted (HExec (Some "cat") ["cat"]).
Proof.
  cbv zeta.
  destruct (child_exits_or_becomes_the_program (fixed_kernel (child_view 3 None)) ()
              initial_state ["cat"] 0 (Some "in.txt") None eq_refl) as [Honly _].
  split; [exact Honly | reflexivity].
Defined.

(** X12: in the child, [execvp] is given [args[0]] and the arguments as
    they are, and what comes after the [fork] and the descriptor calls is
    exactly: SIGTSTP set to ignored; SIGINT set to default when
    [background] is 0 and left alone otherwise; [execvp]; and after it at
    most the report of its failure. *)
Theorem child_sets_signals_then_execs
    {W} (K : kernel W) (w : W) (st : ShellState)
    (a : list string) (bg : Z) (inF outF : option string) :
  let r := exec K (executeCommand a bg inF outF) st w in
  head (trace_of r) = Some (Fork, RInt 0) →
  ∀ file argv, Execvp file argv ∈ calls (trace_of r) →
    file = head a ∧ argv = a ∧
    ∃ post,
      after_fds (calls (trace_of r)) =
        Sigaction SIGTSTP SIG_IGN ::
        (if bg =? 0 then [Sigaction SIGINT SIG_DFL] else []) ++
        Execvp (head a) a :: post ∧
      (post = [] ∨ post = [Perror "command not found"]).
Proof.
  cbv zeta.
  apply (wpM_exec K (executeCommand a bg inF outF) st
           (λ t o,
              head t = Some (Fork, RInt 0) →
              ∀ file argv, Execvp file argv ∈ calls t →
                file = head a ∧ argv = a ∧
                ∃ post,
                  after_fds (calls t) =
                    Sigaction SIGTSTP SIG_IGN ::
                    (if bg =? 0 then [Sigaction SIGINT SIG_DFL] else []) ++
                    Execvp (head a) a :: post ∧
                  (post = [] ∨ post = [Perror "command not found"]))).
  unfold executeCommand. wp_simpl. intros pid. cbn in pid.
  destruct (Z.eqb_spec pid 0) as [-> | Hne0].
  2: { apply wp_any. by intros t o [= ->]. }
  cbn [Z.eqb].
  unfold child_branch, redirect_input, redirect_output, execvp.
  wp_auto.
  all: intros _ file argv Hin; unfold calls in Hin; cbn in Hin; calls_facts; subst.
  all: split; [done |]; split; [done |].
  all: unfold calls; cbn;
    repeat match goal with
           | H : ?c = _ |- context [if ?c then _ else _] => rewrite H
           end; cbn.
  all: eexists; split; [reflexivity |]; auto.
Qed.

Lemma child_sets_signals_then_execs_witness :
  let K := fixed_kernel (child_view 3 (Some (-1))) in
  after_fds (calls (trace_of (exec K (executeCommand ["nosuch"; "-x"] 1 None (Some "o"))
                                initial_state ()))) =
    [Sigaction SIGTSTP SIG_IGN; Execvp (Some "nosuch") ["nosuch"; "-x"];
     Perror "command not found"].
Proof.
  cbv zeta.
  destruct (child_sets_signals_then_execs (fixed_kernel (child_view 3 (Some (-1)))) ()
              initial_state ["nosuch"; "-x"] 1 None (Some "o") eq_refl
              (Some "nosuch") ["nosuch"; "-x"]) as (_ & _ & post & Hafter & _).
  { vm_compute. repeat constructor. }
  reflexivity.
Defined.

(** ** Lines and tokens *)

Lemma string_app_cons (x : ascii) (a b : string) :
  String x a +:+ b = String x (a +:+ b).
Proof. reflexivity. Qed.

Lemma string_app_nil_l (b : string) : EmptyString +:+ b = b.
Proof. reflexivity. Qed.

Lemma string_app_assoc (a b c : string) : (a +:+ b) +:+ c = a +:+ (b +:+ c).
Proof.
  induction a as [| x a IH]; [done |]. by rewrite !string_app_cons, IH.
Qed.

Lemma string_app_nil_r (a : string) : a +:+ EmptyString = a.
Proof. induction a as [| x a IH]; [done |]. by rewrite string_app_cons, IH. Qed.

Lemma string_app_length (a b : string) :
  String.length (a +:+ b) = (String.length a + String.length b)%nat.
Proof.
  induction a as [| x a IH]; [done |]. rewrite string_app_cons. cbn. by rewrite IH.
Qed.

Lemma strtok_from_word (w cur s : string) :
  no_delim w = true → strtok_from cur (w +:+ s) = strtok_from (cur +:+ w) s.
Proof.
  revert cur. induction w as [| c w IH]; intros cur Hw.
  - by rewrite string_app_nil_l, string_app_nil_r.
  - cbn in Hw. apply andb_true_iff in Hw as [Hc Hw].
    apply negb_true_iff in Hc. rewrite string_app_cons. cbn [strtok_from].
    rewrite Hc, (IH _ Hw), string_app_assoc. done.
Qed.

Lemma strtok_from_cut (cur : string) (c : ascii) (s : string) :
  cur ≠ EmptyString → is_delim c = true →
  strtok_from cur (String c s) = cur :: strtok_from EmptyString s.
Proof.
  intros Hcur Hc. cbn. rewrite Hc.
  by destruct (String.eqb_spec cur EmptyString).
Qed.

Lemma word_spec (w : string) : word w = true → w ≠ EmptyString ∧ no_delim w = true.
Proof.
  unfold word. intros [Hne Hnd]%andb_true_iff. split; [| done].
  apply negb_true_iff in Hne. by apply String.eqb_neq.
Qed.

Lemma strtok_all_typed (toks : list string) :
  Forall (λ w, word w = true) toks → strtok_all (typed toks) = toks.
Proof.
  unfold strtok_all, typed. induction 1 as [| w ws Hw Hws IH]; [done |].
  apply word_spec in Hw as [Hne Hnd].
  destruct ws as [| w2 ws].
  - cbn [String.concat]. rewrite strtok_from_word by done.
    rewrite string_app_nil_l. unfold LF. rewrite strtok_from_cut by done. done.
  - change (String.concat " " (w :: w2 :: ws))
      with (w +:+ (" " +:+ String.concat " " (w2 :: ws))).
    rewrite !string_app_assoc. rewrite strtok_from_word by done.
    rewrite string_app_nil_l, string_app_cons, strtok_from_cut by done.
    rewrite string_app_nil_l. by rewrite IH.
Qed.

(** X13: a line of words with one space between them is cut into exactly
    those words; when none of them is [<], [>] or [&] they become the
    argument vector as typed, with no redirection and no background flag,
    and one more [&] at the end sets the flag and changes nothing else. *)
Theorem plain_line_is_passed_verbatim (ws : list string) :
  Forall (λ w, word w = true) ws →
  strtok_all (typed ws) = ws ∧
  (Forall (λ w, ordinary w = true) ws →
   parse_line (typed ws) =
     {| args := ws; background := 0; inputFile := None; outputFile := None |} ∧
   parse_line (typed (ws ++ ["&"])) =
     {| args := ws; background := 1; inputFile := None; outputFile := None |}).
Proof.
  intros Hws. split; [by apply strtok_all_typed |]. intros Hord.
  assert (Forall chunk_ok (CWord <$> ws)) as Hok.
  { apply Forall_fmap. by apply (Forall_impl _ _ _ Hord). }
  assert ((CWord <$> ws) ≫= chunk_tokens = ws) as Htok.
  { clear. induction ws as [| w ws IH]; [done |]. cbn. by rewrite IH. }
  assert (∀ cmd, foldl (flip chunk_effect) cmd (CWord <$> ws) =
                 {| args := args cmd ++ ws; background := background cmd;
                    inputFile := inputFile cmd; outputFile := outputFile cmd |})
    as Hfold.
  { clear. induction ws as [| w ws IH]; intros cmd; cbn.
    - rewrite app_nil_r. by destruct cmd.
    - rewrite IH. cbn. by rewrite <- app_assoc. }
  unfold parse_line. split.
  - rewrite strtok_all_typed by done.
    rewrite (scan_chunked (CWord <$> ws) EndPlain ws no_command).
    + cbn. by rewrite Hfold.
    + split; [done |]. cbn. by rewrite Htok, app_nil_r.
  - rewrite strtok_all_typed.
    + rewrite (scan_chunked (CWord <$> ws) EndAmp (ws ++ ["&"]) no_command).
      * cbn. by rewrite Hfold.
      * split; [done |]. cbn. by rewrite Htok.
    + apply Forall_app. split; [done |]. by repeat constructor.
Qed.

Lemma plain_line_is_passed_verbatim_witness :
  Forall (λ w, word w = true) ["ls"; "-la"; "/tmp"] ∧
  Forall (λ w, ordinary w = true) ["ls"; "-la"; "/tmp"] ∧
  parse_line ("ls -la /tmp" +:+ LF) =
    {| args := ["ls"; "-la"; "/tmp"]; background := 0;
       inputFile := None; outputFile := None |} ∧
  parse_line ("ls -la /tmp &" +:+ LF) =
    {| args := ["ls"; "-la"; "/tmp"]; background := 1;
       inputFile := None; outputFile := None |}.
Proof.
  assert (Forall (λ w, word w = true) ["ls"; "-la"; "/tmp"]) as Hw
    by (by repeat constructor).
  assert (Forall (λ w, ordinary w = true) ["ls"; "-la"; "/tmp"]) as Ho
    by (by repeat constructor).
  split; [exact Hw |]. split; [exact Ho |].
  exact (proj2 (plain_line_is_passed_verbatim ["ls"; "-la"; "/tmp"] Hw) Ho).
Defined.

Lemma chunks_files (cs : list chunk) (cmd : Command) :
  inputFile (foldl (flip chunk_effect) cmd cs) =
    from_option Some (inputFile cmd) (last_in cs) ∧
  outputFile (foldl (flip chunk_effect) cmd cs) =
    from_option Some (outputFile cmd) (last_out cs).
Proof.
  unfold last_in, last_out. revert cmd.
  induction cs as [| c cs IH]; intros cmd; [done |].
  cbn [foldl flip]. destruct (IH (chunk_effect c cmd)) as [-> ->]. clear IH.
  destruct c as [w | path | path | s]; cbn; try done.
  - split; [| done]. destruct (omap _ cs) as [| p ps]; [done |].
    rewrite last_cons_cons.
    destruct (last (p :: ps)) eqn:E; [done |].
    by pose proof (proj1 (last_None _) E).
  - split; [done |]. destruct (omap _ cs) as [| p ps]; [done |].
    rewrite last_cons_cons.
    destruct (last (p :: ps)) eqn:E; [done |].
    by pose proof (proj1 (last_None _) E).
Qed.

(** X14: of several redirections of the same kind the last one the loop
    arrives at wins, and a [<] or [>] that is the last token, with no
    path after it, withdraws the redirection: the file handed to
    [executeCommand] is NULL again. *)
Theorem last_redirection_wins
    (cs : list chunk) (e : line_end) (toks : list string) :
  chunked cs e toks →
  inputFile (scan toks no_command) =
    match e with EndIn => None | _ => last_in cs end ∧
  outputFile (scan toks no_command) =
    match e with EndOut => None | _ => last_out cs end.
Proof.
  intros Hch. rewrite (scan_chunked cs e toks no_command Hch).
  destruct (chunks_files cs no_command) as [Hin Hout].
  destruct e; cbn; rewrite ?Hin, ?Hout; cbn.
  all: by destruct (last_in cs), (last_out cs).
Qed.

Lemma last_redirection_wins_witness :
  inputFile (scan ["cat"; "<"; "a"; "<"; "b"; ">"; "o"] no_command) = Some "b" ∧
  outputFile (scan ["cat"; "<"; "a"; "<"; "b"; ">"; "o"] no_command) = Some "o" ∧
  inputFile (scan ["cat"; ">"; "o"; "<"; "a"; "<"] no_command) = None ∧
  outputFile (scan ["cat"; ">"; "o"; "<"; "a"; "<"] no_command) = Some "o".
Proof.
  assert (chunked [CWord "cat"; CIn "a"; CIn "b"; COut "o"] EndPlain
            ["cat"; "<"; "a"; "<"; "b"; ">"; "o"]) as H1
    by (split; [by repeat constructor | reflexivity]).
  assert (chunked [CWord "cat"; COut "o"; CIn "a"] EndIn
            ["cat"; ">"; "o"; "<"; "a"; "<"]) as H2
    by (split; [by repeat constructor | reflexivity]).
  destruct (last_redirection_wins _ _ _ H1) as [Ha Hb].
  destruct (last_redirection_wins _ _ _ H2) as [Hc Hd].
  split; [exact Ha |]. split; [exact Hb |]. split; [exact Hc | exact Hd].
Defined.

Lemma chunk_tokens_length (cs : list chunk) :
  (length (cs ≫= chunk_args) ≤ length (cs ≫= chunk_tokens))%nat.
Proof.
  induction cs as [| c cs IH]; [done |]. cbn. rewrite !length_app.
  destruct c; cbn; lia.
Qed.

Lemma args_no_more_than_tokens (toks : list string) :
  (length (args (scan toks no_command)) ≤ length toks)%nat.
Proof.
  destruct (chunked_exists toks) as (cs & e & Hch).
  rewrite (scan_chunked cs e toks no_command Hch).
  assert (args (end_effect e (foldl (flip chunk_effect) no_command cs)) =
          cs ≫= chunk_args) as ->.
  { destruct e; cbn; by rewrite chunks_args. }
  destruct Hch as [Hok ->].
  rewrite length_app. pose proof (chunk_tokens_length cs). lia.
Qed.

(** X15: whatever the line, the arguments handed on are ordinary words
    or [&]: a [<] or a [>] never reaches a program as an argument; and
    there are never more arguments than tokens. *)
Theorem arguments_are_words_or_ampersands (toks : list string) :
  Forall (λ a, ordinary a = true ∨ a = "&") (args (scan toks no_command)) ∧
  (length (args (scan toks no_command)) ≤ length toks)%nat.
Proof.
  destruct (chunked_exists toks) as (cs & e & Hch).
  rewrite (scan_chunked cs e toks no_command Hch).
  assert (args (end_effect e (foldl (flip chunk_effect) no_command cs)) =
          cs ≫= chunk_args) as ->.
  { destruct e; cbn; by rewrite chunks_args. }
  destruct Hch as [Hok ->]. split.
  - clear e. induction Hok as [| c cs Hc _ IH]; [done |]. cbn.
    apply Forall_app. split; [| done].
    destruct c as [w | path | path | s]; cbn; [| done | done |].
    + constructor; [by left | done].
    + constructor; [by right | done].
  - rewrite length_app. pose proof (chunk_tokens_length cs). lia.
Qed.

Lemma strtok_from_count (cur s : string) :
  (2 * length (strtok_from cur s) ≤
   String.length s + if String.eqb cur EmptyString then 1 else 2)%nat.
Proof.
  revert cur. induction s as [| c s IH]; intros cur; cbn [strtok_from String.length].
  - destruct (String.eqb cur EmptyString); cbn; lia.
  - destruct (is_delim c).
    + pose proof (IH EmptyString) as H. cbn in H.
      destruct (String.eqb cur EmptyString); cbn [length]; lia.
    + pose proof (IH (cur +:+ String c EmptyString)) as H.
      assert (String.eqb (cur +:+ String c EmptyString) EmptyString = false) as Hne.
      { apply String.eqb_neq. by destruct cur. }
      rewrite Hne in H. destruct (String.eqb cur EmptyString); lia.
Qed.

Lemma short_line_fits (input : string) :
  Z.of_nat (String.length input) ≤ 2 * MAX_ARGS - 2 →
  Z.of_nat (length (args (parse_line input))) < MAX_ARGS.
Proof.
  intros Hlen. unfold parse_line.
  pose proof (args_no_more_than_tokens (strtok_all input)) as Hargs.
  pose proof (strtok_from_count EmptyString input) as Htok. cbn in Htok.
  unfold strtok_all in *. unfold MAX_ARGS in *. lia.
Qed.

Lemma route_no_args_fault (cmd : Command) (st : ShellState) :
  wpM (route cmd) st (λ _ o, o ≠ Halted (HUndef ArgsOutOfBounds)).
Proof.
  unfold route. destruct (args cmd) as [| arg0 rest]; [by wp_simpl |].
  destruct (String.eqb arg0 "exit").
  { unfold builtin_exit. wp_simpl.
    eapply wpM_seq; [apply kill_from_quiet | | by intros t h [_ ->]].
    intros t1 [] st1 _. by wp_simpl. }
  destruct (String.eqb arg0 "cd"); [unfold builtin_cd; wp_auto; done |].
  destruct (String.eqb arg0 "status"); [unfold builtin_status; wp_auto; done |].
  unfold executeCommand, child_branch, parent_branch, redirect_input,
    redirect_output, execvp, bg_append.
  wp_auto; done.
Qed.

Lemma loop_body_args_fault (st : ShellState) :
  wpM loop_body st
    (λ t o, o = Halted (HUndef ArgsOutOfBounds) →
            ∃ input, (Fgets MAX_INPUT, RStr (Some input)) ∈ t ∧
                     2 * MAX_ARGS - 2 < Z.of_nat (String.length input)).
Proof.
  unfold loop_body.
  eapply wpM_seq; [apply checkBackgroundProcesses_quiet | | by intros t h [_ ->]].
  intros t1 [] st1 _.
  eapply wpM_seq; [apply prompt_quiet | | by intros t h [_ ->]].
  intros t2 [] st2 _. wp_simpl. intros [input |]; wp_simpl.
  - destruct (skipped_line input); [by wp_simpl |].
    destruct (MAX_ARGS <=? _) eqn:Hmax; wp_simpl.
    + intros _. exists input. split.
      * apply elem_of_app. right. apply elem_of_app. right. apply list_elem_of_here.
      * apply Z.leb_le in Hmax.
        destruct (Z.le_gt_cases (Z.of_nat (String.length input)) (2 * MAX_ARGS - 2))
          as [Hshort | Hlong]; [| lia].
        pose proof (short_line_fits input Hshort). lia.
    + eapply wp_mono; [| apply route_no_args_fault]. by intros t3 o Ho Habs.
  - by intros r.
Qed.

(** X16: [args] holds 512 pointers and a line may hold up to 2047
    characters.  A line of at most 1022 characters never has 512
    arguments, so a turn stops on a store outside [args] only when the
    line read was longer than that. *)
Theorem short_lines_fit_the_argument_array
    {W} (K : kernel W) (w : W) (st : ShellState) :
  (∀ input, Z.of_nat (String.length input) ≤ 2 * MAX_ARGS - 2 →
            Z.of_nat (length (args (parse_line input))) < MAX_ARGS) ∧
  (let r := exec K loop_body st w in
   outcome_of r = Halted (HUndef ArgsOutOfBounds) →
   ∃ input, (Fgets MAX_INPUT, RStr (Some input)) ∈ trace_of r ∧
            2 * MAX_ARGS - 2 < Z.of_nat (String.length input)).
Proof.
  split; [apply short_line_fits |]. cbv zeta.
  apply (wpM_exec K loop_body st _ w (loop_body_args_fault st)).
Qed.

Lemma short_lines_fit_the_argument_array_witness :
  let K := fixed_kernel (parent_view 4242 0 overlong_line) in
  Z.of_nat (String.length overlong_line) < MAX_INPUT ∧
  outcome_of (exec K loop_body initial_state ()) = Halted (HUndef ArgsOutOfBounds) ∧
  (∃ input, (Fgets MAX_INPUT, RStr (Some input)) ∈
              trace_of (exec K loop_body initial_state ()) ∧
            2 * MAX_ARGS - 2 < Z.of_nat (String.length input)) ∧
  Z.of_nat (length (args (parse_line ("ls -l" +:+ LF)))) < MAX_ARGS.
Proof.
  cbv zeta.
  assert (outcome_of (exec (fixed_kernel (parent_view 4242 0 overlong_line))
                        loop_body initial_state ()) =
          Halted (HUndef ArgsOutOfBounds)) as Hfault by (vm_compute; reflexivity).
  pose proof (short_lines_fit_the_argument_array
                (fixed_kernel (parent_view 4242 0 overlong_line)) () initial_state)
    as [Hshort Hlong].
  split; [vm_compute; reflexivity |]. split; [exact Hfault |].
  split; [exact (Hlong Hfault) |].
  apply Hshort. vm_compute. discriminate.
Defined.

(** ** A reap cycle against the POSIX kernel *)

Lemma poll_sublist (hs : list Z) (ch : gmap Z child) :
  fst (poll hs ch) `sublist_of` hs.
Proof.
  revert ch. induction hs as [| h hs IH]; intros ch; cbn; [done |].
  destruct (0 <? h); [| by apply sublist_cons].
  destruct (ch !! h) as [[fate | status] |]; try by apply sublist_cons.
  specialize (IH (delete h ch)). destruct (poll hs (delete h ch)) as [done ch'].
  by apply sublist_skip.
Qed.

Lemma poll_lookup (hs : list Z) (ch : gmap Z child) (p : Z) :
  snd (poll hs ch) !! p = if decide (p ∈ fst (poll hs ch)) then None else ch !! p.
Proof.
  revert ch. induction hs as [| h hs IH]; intros ch; cbn.
  { by rewrite decide_False by apply not_elem_of_nil. }
  destruct (0 <? h); [| by apply IH].
  destruct (ch !! h) as [[fate | status] |] eqn:Hh; try by apply IH.
  specialize (IH (delete h ch)). destruct (poll hs (delete h ch)) as [done ch'].
  cbn in *. rewrite IH.
  destruct (decide (p = h)) as [-> | Hne].
  - rewrite (decide_True (P := h ∈ h :: done)) by apply list_elem_of_here.
    rewrite lookup_delete_eq. by destruct (decide (h ∈ done)).
  - rewrite lookup_delete_ne by done.
    destruct (decide (p ∈ done)) as [Hin | Hnin].
    + by rewrite decide_True by (by apply list_elem_of_further).
    + rewrite decide_False; [done |]. by intros [? | ?]%elem_of_cons.
Qed.

Lemma poll_no_zombie (hs : list Z) (ch : gmap Z child) (h s : Z) :
  h ∈ hs → 0 < h → snd (poll hs ch) !! h ≠ Some (Zombie s).
Proof.
  intros Hin Hpos. revert ch. induction hs as [| h' hs IH]; intros ch.
  { by apply elem_of_nil in Hin. }
  cbn. destruct (decide (h = h')) as [<- | Hne].
  - destruct (Z.ltb_spec 0 h); [| lia].
    destruct (ch !! h) as [[fate | status] |] eqn:Hh.
    + rewrite poll_lookup. destruct (decide _); [done | by rewrite Hh].
    + destruct (poll_absent hs (delete h ch) h) as [_ Hgone];
        [apply lookup_delete_eq |].
      destruct (poll hs (delete h ch)) as [done ch']. cbn in *. by rewrite Hgone.
    + rewrite poll_lookup. destruct (decide _); [done | by rewrite Hh].
  - apply elem_of_cons in Hin as [-> | Hin]; [done |].
    destruct (0 <? h'); [| by apply IH].
    destruct (ch !! h') as [[fate | status] |]; try by apply IH.
    specialize (IH Hin (delete h' ch)).
    by destruct (poll hs (delete h' ch)) as [done ch'].
Qed.

(** X17: against the POSIX kernel a reap cycle reports children in the
    order of the table; the kernel forgets exactly the children reported
    and keeps every other one as it was, so running children go on
    running; and no tracked child is left ended and unreaped after the
    cycle. *)
Theorem reap_cycle_leaves_no_tracked_zombie (st : ShellState) (w : world) :
  wf_table st →
  let r := exec posix checkBackgroundProcesses st w in
  reports (trace_of r) `sublist_of` tracked st ∧
  (∀ p, children (world_of r) !! p =
        if decide (p ∈ reports (trace_of r)) then None else children w !! p) ∧
  (∀ p s, p ∈ tracked st → 0 < p → children (world_of r) !! p ≠ Some (Zombie s)).
Proof.
  intros Hwf. cbv zeta.
  destruct (checkBackgroundProcesses_posix st w Hwf) as [-> ->].
  split; [apply poll_sublist |]. split; [intros p; apply poll_lookup |].
  intros p s Hin Hpos. by apply poll_no_zombie.
Qed.

Lemma reap_cycle_leaves_no_tracked_zombie_witness :
  let st := with_bgProcesses (<[1%nat := 4243]> (bgProcesses one_job))
              (with_bgCount 2 one_job) in
  let w := {| children := {[4242 := Running 0; 4243 := Zombie 256]};
              next_pid := 4244; stdin := [] |} in
  wf_table st ∧
  reports (trace_of (exec posix checkBackgroundProcesses st w)) `sublist_of` tracked st ∧
  children (world_of (exec posix checkBackgroundProcesses st w)) !! 4242 =
    (if decide (4242 ∈ reports (trace_of (exec posix checkBackgroundProcesses st w)))
     then None else children w !! 4242).
Proof.
  cbv zeta.
  assert (wf_table (with_bgProcesses (<[1%nat := 4243]> (bgProcesses one_job))
                      (with_bgCount 2 one_job))) as Hwf.
  { split; [cbn; unfold BG_CAPACITY; lia | reflexivity]. }
  split; [exact Hwf |].
  destruct (reap_cycle_leaves_no_tracked_zombie _
              {| children := {[4242 := Running 0; 4243 := Zombie 256]};
                 next_pid := 4244; stdin := [] |} Hwf) as (H1 & H2 & _).
  split; [exact H1 | exact (H2 4242)].
Defined.

(** ** What a foreground wait records *)

(** X18: a foreground child that exits with code [c] leaves
    [lastExitStatus] at [c], and the shell prints nothing about it; one
    killed by signal [s] leaves it at [s], and the shell prints
    "terminated by signal s" and flushes.  (Wait statuses as Linux
    encodes them: [c * 256] for an exit, [s] for a death by signal.) *)
Theorem foreground_wait_records_code_or_signal
    {W} (K : kernel W) (w : W) (st : ShellState)
    (a : list string) (bg : Z) (inF outF : option string) (pid : Z) :
  bg = 0 ∨ foregroundOnly st ≠ 0 →
  let r := exec K (executeCommand a bg inF outF) st w in
  head (trace_of r) = Some (Fork, RInt pid) → pid ≠ -1 → pid ≠ 0 →
  (∀ ret c, 0 ≤ c < 256 →
     (Waitpid pid 0, RWait ret (c * 256)) ∈ trace_of r →
     outcome_of r = Returned ((), with_lastExitStatus c st) ∧
     calls (trace_of r) = [Fork; Waitpid pid 0]) ∧
  (∀ ret s, 1 ≤ s < 128 →
     (Waitpid pid 0, RWait ret s) ∈ trace_of r →
     outcome_of r = Returned ((), with_lastExitStatus s st) ∧
     calls (trace_of r) =
       [Fork; Waitpid pid 0; Printf ("terminated by signal %d" +:+ LF) [s]; Fflush]).
Proof.
  intros Hfg. cbv zeta.
  assert (negb (bg =? 0) && (foregroundOnly st =? 0) = false) as Hb.
  { destruct Hfg as [-> | Hfo]; [done |].
    apply Z.eqb_neq in Hfo. by rewrite Hfo, andb_false_r. }
  apply (wpM_exec K (executeCommand a bg inF outF) st
           (λ t o,
              head t = Some (Fork, RInt pid) → pid ≠ -1 → pid ≠ 0 →
              (∀ ret c, 0 ≤ c < 256 →
                 (Waitpid pid 0, RWait ret (c * 256)) ∈ t →
                 o = Returned ((), with_lastExitStatus c st) ∧
                 calls t = [Fork; Waitpid pid 0]) ∧
              (∀ ret s, 1 ≤ s < 128 →
                 (Waitpid pid 0, RWait ret s) ∈ t →
                 o = Returned ((), with_lastExitStatus s st) ∧
                 calls t = [Fork; Waitpid pid 0;
                            Printf ("terminated by signal %d" +:+ LF) [s]; Fflush]))).
  unfold executeCommand. wp_simpl. intros pid'. cbn in pid'.
  destruct (Z.eqb_spec pid' (-1)) as [-> | Hne1].
  { apply wp_any. by intros t o [= <-]. }
  destruct (Z.eqb_spec pid' 0) as [-> | Hne0].
  { apply wp_any. by intros t o [= <-]. }
  unfold parent_branch. wp_simpl. rewrite Hb. wp_simpl.
  intros [ret' status].
  destruct (WIFEXITED status) eqn:Hex; wp_simpl.
  - intros [= <-] _ _. split.
    + intros ret c Hc Hin. trace_facts. simplify_eq.
      destruct (wait_status_exit c Hc) as [_ ->]. done.
    + intros ret s Hs Hin. trace_facts. simplify_eq.
      match goal with
      | H : 1 ≤ ?x < 128 |- _ => destruct (wait_status_signal x H) as [Habs _]
      end. congruence.
  - intros r1 r2 [= <-] _ _. split.
    + intros ret c Hc Hin. trace_facts; simplify_eq.
      destruct (wait_status_exit c Hc) as [Habs _]. congruence.
    + intros ret s Hs Hin. trace_facts; simplify_eq.
      match goal with
      | H : 1 ≤ ?x < 128 |- _ => destruct (wait_status_signal x H) as [_ ->]
      end. done.
Qed.

Lemma foreground_wait_records_code_or_signal_witness :
  let K := fixed_kernel (parent_view 4242 256 ("false" +:+ LF)) in
  outcome_of (exec K (executeCommand ["false"] 0 None None) initial_state ()) =
    Returned ((), with_lastExitStatus 1 initial_state) ∧
  calls (trace_of (exec K (executeCommand ["false"] 0 None None) initial_state ())) =
    [Fork; Waitpid 4242 0].
Proof.
  cbv zeta.
  destruct (foreground_wait_records_code_or_signal
              (fixed_kernel (parent_view 4242 256 ("false" +:+ LF))) ()
              initial_state ["false"] 0 None None 4242 (or_introl eq_refl) eq_refl
              ltac:(lia) ltac:(lia)) as [Hexit _].
  apply (Hexit 4242 1 ltac:(lia)). vm_compute. repeat constructor.
Defined.

(** ** Process creation over a session *)

Lemma forks_app (t1 t2 : trace) : forks (t1 ++ t2) = (forks t1 + forks t2)%nat.
Proof. unfold forks, calls. by rewrite fmap_app, List.filter_app, length_app. Qed.

Lemma plain_no_fork_forks (t : trace) : only not_fork t → forks t = 0%nat.
Proof.
  unfold only, forks, not_fork. induction (calls t) as [| c cs IH]; [done |].
  cbn. intros [Hc Hcs]%andb_true_iff. apply negb_true_iff in Hc. rewrite Hc. by apply IH.
Qed.

Lemma announced_were_forked_app (t1 t2 : trace) :
  announced_were_forked t1 → announced_were_forked t2 →
  announced_were_forked (t1 ++ t2).
Proof.
  intros H1 H2 pid. rewrite announced_pids_app, !elem_of_app.
  intros [Hin | Hin]; [left; by apply H1 | right; by apply H2].
Qed.

Lemma plain_announced_were_forked (t : trace) :
  only plain_call t → announced_were_forked t.
Proof.
  intros Hp pid. rewrite (plain_announced_pids t Hp). by intros ?%elem_of_nil.
Qed.

Lemma plain_without_fork (P : syscall → bool) (t : trace) :
  (∀ c, P c = true → plain_call c = true ∧ not_fork c = true) →
  only P t → without_fork t.
Proof.
  intros HP Hp. split.
  - apply plain_no_fork_forks. apply (only_weaken P); [| done]. intros c Hc. by apply HP.
  - apply plain_announced_were_forked. apply (only_weaken P); [| done].
    intros c Hc. by apply HP.
Qed.

Lemma without_fork_app (t1 t2 : trace) :
  without_fork t1 → without_fork t2 → without_fork (t1 ++ t2).
Proof.
  intros [F1 A1] [F2 A2]. split; [rewrite forks_app; lia |].
  by apply announced_were_forked_app.
Qed.

Lemma without_then_one (t1 t2 : trace) :
  without_fork t1 → at_most_one_fork t2 → at_most_one_fork (t1 ++ t2).
Proof.
  intros [F1 A1] [F2 A2]. split; [rewrite forks_app; lia |].
  by apply announced_were_forked_app.
Qed.

Lemma quiet_call_without_fork (t : trace) :
  only (λ c, plain_call c && not_fork c) t → without_fork t.
Proof.
  apply plain_without_fork. intros c Hc. by apply andb_true_iff in Hc.
Qed.

Lemma wpM_without_then {A B} (m : M A) (f : A → M B) (st : ShellState) :
  wpM m st (λ t _, without_fork t) →
  (∀ a st1, wpM (f a) st1 (λ t _, at_most_one_fork t)) →
  wpM (m ≫= f) st (λ t _, at_most_one_fork t).
Proof.
  intros Hm Hf. eapply wpM_seq; [apply Hm | |].
  - intros t1 a st1 H1. eapply wp_mono; [| apply Hf].
    intros t2 o2 H2. by apply without_then_one.
  - intros t1 h [F A1]. split; [lia | done].
Qed.

Lemma route_at_most_one_fork (cmd : Command) (st : ShellState) :
  wpM (route cmd) st (λ t _, at_most_one_fork t).
Proof.
  assert (∀ t, without_fork t → at_most_one_fork t) as Hweak.
  { intros t [F A]. split; [lia | done]. }
  unfold route. destruct (args cmd) as [| arg0 rest].
  { wp_simpl. by apply Hweak, quiet_call_without_fork. }
  destruct (String.eqb arg0 "exit").
  { unfold builtin_exit. wp_simpl.
    apply wpM_without_then.
    - eapply wp_mono; [| by apply (kill_from_only (λ c, plain_call c && not_fork c))].
      intros t o Ht. by apply quiet_call_without_fork.
    - intros [] st1. wp_simpl. by apply Hweak, quiet_call_without_fork. }
  destruct (String.eqb arg0 "cd").
  { unfold builtin_cd. wp_auto. all: by apply Hweak, quiet_call_without_fork. }
  destruct (String.eqb arg0 "status").
  { unfold builtin_status. wp_auto. all: by apply Hweak, quiet_call_without_fork. }
  unfold executeCommand, child_branch, parent_branch, redirect_input,
    redirect_output, execvp, bg_append.
  wp_auto.
  all: split; [unfold forks, calls; cbn; lia |].
  all: intros pid Hin; unfold announced_pids in Hin; cbn in Hin.
  all: try (by apply elem_of_nil in Hin).
  all: apply list_elem_of_singleton in Hin as ->; apply list_elem_of_here.
Qed.

Lemma loop_body_at_most_one_fork (st : ShellState) :
  wpM loop_body st (λ t _, at_most_one_fork t).
Proof.
  unfold loop_body. apply wpM_without_then.
  { unfold checkBackgroundProcesses. wp_simpl.
    eapply wp_mono; [| apply (reap_from_only (λ c, plain_call c && not_fork c))].
    - intros t o Ht. by apply quiet_call_without_fork.
    - intros c Hc. rewrite (reap_call_plain c Hc). by destruct c. }
  intros [] st1. apply wpM_without_then.
  { unfold prompt. wp_auto. by apply quiet_call_without_fork. }
  intros [] st2. apply wpM_without_then.
  { wp_simpl. intros line. by apply quiet_call_without_fork. }
  intros [input |] st3.
  - destruct (skipped_line input).
    { wp_simpl. split; [unfold forks; cbn; lia | by apply plain_announced_were_forked]. }
    destruct (MAX_ARGS <=? _).
    { wp_simpl. split; [unfold forks; cbn; lia | by apply plain_announced_were_forked]. }
    apply route_at_most_one_fork.
  - wp_auto. split; [unfold forks; cbn; lia | by apply plain_announced_were_forked].
Qed.

Lemma session_forks (ts : list tick) (st : ShellState) :
  wpM (session ts) st
    (λ t _, (forks t ≤ turns ts)%nat ∧ announced_were_forked t).
Proof.
  revert st. induction ts as [| [|] ts IH]; intros st; cbn [session].
  - wp_simpl. split; [done | by apply plain_announced_were_forked].
  - eapply wpM_seq; [apply loop_body_at_most_one_fork | |].
    + intros t1 [] st1 [F1 A1]. eapply wp_mono; [| apply IH].
      intros t2 o [F2 A2]. split; [| by apply announced_were_forked_app].
      rewrite forks_app. unfold turns in *. cbn. lia.
    + intros t1 h [F1 A1]. split; [unfold turns; cbn; lia | done].
  - eapply wpM_seq with (Q1 := λ t _, without_fork t).
    + unfold handle_SIGTSTP. wp_auto; by apply quiet_call_without_fork.
    + intros t1 [] st1 [F1 A1]. eapply wp_mono; [| apply IH].
      intros t2 o [F2 A2]. split; [| by apply announced_were_forked_app].
      rewrite forks_app, F1. unfold turns in *. cbn. lia.
    + intros t1 h [F1 A1]. split; [lia | done].
Qed.

(** X19: over a session there is at most one [fork] per turn of the loop,
    none at a delivery of SIGTSTP, and every pid announced as a
    background job is a pid that a [fork] of the session returned. *)
Theorem one_fork_per_turn_and_announced_were_forked
    {W} (K : kernel W) (w : W) (st : ShellState) (ts : list tick) :
  let r := exec K (session ts) st w in
  (forks (trace_of r) ≤ turns ts)%nat ∧
  ∀ pid, pid ∈ announced_pids (trace_of r) → (Fork, RInt pid) ∈ trace_of r.
Proof. cbv zeta. apply (wpM_exec K (session ts) st _ w (session_forks ts st)). Qed.

Lemma one_fork_per_turn_and_announced_were_forked_witness :
  let w := {| children := ∅; next_pid := 100;
              stdin := ["sleep 5 &" +:+ LF; "cd /tmp" +:+ LF; "ls" +:+ LF] |} in
  100 ∈ announced_pids
          (trace_of (exec posix (session [Turn; Suspend; Turn; Turn]) initial_state w)) ∧
  (Fork, RInt 100) ∈
    trace_of (exec posix (session [Turn; Suspend; Turn; Turn]) initial_state w).
Proof.
  cbv zeta.
  assert (100 ∈ announced_pids
                  (trace_of (exec posix (session [Turn; Suspend; Turn; Turn])
                               initial_state
                               {| children := ∅; next_pid := 100;
                                  stdin := ["sleep 5 &" +:+ LF; "cd /tmp" +:+ LF;
                                            "ls" +:+ LF] |}))) as Hin.
  { vm_compute. repeat constructor. }
  split; [exact Hin |].
  exact (proj2 (one_fork_per_turn_and_announced_were_forked posix _ initial_state
                  [Turn; Suspend; Turn; Turn]) 100 Hin).
Defined.

(** X20: [exit] signals every job ever announced.  After a session that
    started with the handles [tracked st], the [exit] built-in sends
    SIGTERM to those and to every pid announced during the session, in
    order - also to jobs whose completion has long been reported. *)
Theorem exit_signals_every_job_ever_announced
    {W} (K : kernel W) (w : W) (st : ShellState) (ts : list tick) :
  wf_table st →
  let r := exec K (session ts) st w in
  ∀ st', outcome_of r = Returned ((), st') →
    ∀ W' (K' : kernel W') (w' : W'),
      calls (trace_of (exec K' builtin_exit st' w')) =
        (λ h, Kill h SIGTERM) <$> (tracked st ++ announced_pids (trace_of r)) ∧
      outcome_of (exec K' builtin_exit st' w') = Halted (HExit 0).
Proof.
  intros Hwf. cbv zeta. intros st' Ho W' K' w'.
  destruct (wpM_exec K (session ts) st _ w
              (session_rel table_grows ts st table_grows_trans plain_table_grows
                 route_table_grows handle_SIGTSTP_table_grows) () st' Ho Hwf)
    as [[Hcnt Hlen] <-].
  apply (wpM_exec K' builtin_exit st'
           (λ t o, calls t = (λ h, Kill h SIGTERM) <$> tracked st' ∧
                   o = Halted (HExit 0))).
  unfold builtin_exit. wp_simpl.
  eapply wpM_seq; [apply (kill_from_calls _ 0); [lia | lia | done] | |].
  - intros t1 [] st1 [Ht1 _]. wp_simpl. by rewrite app_nil_r.
  - by intros t1 h [_ ?].
Qed.

Lemma exit_signals_every_job_ever_announced_witness :
  let w := {| children := ∅; next_pid := 100;
              stdin := ["sleep 1 &" +:+ LF; "sleep 2 &" +:+ LF] |} in
  let r := exec posix (session [Turn; Turn]) initial_state w in
  wf_table initial_state ∧
  ∃ st', outcome_of r = Returned ((), st') ∧
         calls (trace_of (exec posix builtin_exit st' (world_of r))) =
           (λ h, Kill h SIGTERM) <$>
             (tracked initial_state ++ announced_pids (trace_of r)) ∧
         outcome_of (exec posix builtin_exit st' (world_of r)) = Halted (HExit 0).
Proof.
  cbv zeta. split; [exact wf_table_initial |].
  eexists. split; [vm_compute; reflexivity |].
  match goal with
  | |- calls (trace_of (exec _ _ ?s _)) = _ ∧ _ =>
    apply (exit_signals_every_job_ever_announced posix
             {| children := ∅; next_pid := 100;
                stdin := ["sleep 1 &" +:+ LF; "sleep 2 &" +:+ LF] |}
             initial_state [Turn; Turn] wf_table_initial s)
  end.
  vm_compute. reflexivity.
Defined.
